(** * The curl shim of pantavisor-mocker: [src/net/curl_shim.c]

    A shallow embedding of the accumulating write callback [write_cb] and
    of the one-shot request routine [curl_shim_simple_request], together
    with the thin wrappers around libcurl, and the properties of the
    buffered single-request client they implement.

    The C code runs against two collaborators it does not implement: the
    C allocator and the libcurl engine.  Both are modelled here as far as
    the code observes them; their choices (does an allocation succeed,
    does the handle get acquired, what does the network deliver) are read
    from an [environment], so every statement below quantifies over all
    of them. *)

From Stdlib Require Import ZArith Lia Strings.Byte String.
From stdpp Require Import gmap strings list fin_maps.

Local Open Scope Z_scope.

(** ** Machine integers *)

(** [size_t] is 64 bits wide; [long] is its signed counterpart. *)
Definition SIZE_MAX : Z := 2 ^ 64 - 1.
Definition size_t (z : Z) : Z := z mod 2 ^ 64.
Definition to_long (z : Z) : Z := (z + 2 ^ 63) mod 2 ^ 64 - 2 ^ 63.

Definition len {A} (l : list A) : Z := Z.of_nat (length l).

(** ** Addresses and memory *)

Definition NULL : N := 0%N.

(** A byte of an allocated block is either initialised or indeterminate
    ([None]), as after [malloc]. *)
Abbreviation cell := (option byte).

Record Buffer := mkBuffer { data : N; size : Z }.

(** Objects that live outside the [malloc] heap: the [Buffer] local of
    the request routine and the caller's out-parameters. *)
Inductive object :=
| OBuffer (b : Buffer)
| OPtr (p : N)
| OSize (n : Z)
| OLong (n : Z).

(** ** libcurl, as far as the shim sees it *)

Definition CURLE_OK : Z := 0.
Definition CURLE_FAILED_INIT : Z := 2.
Definition CURLE_COULDNT_RESOLVE_HOST : Z := 6.
Definition CURLE_WRITE_ERROR : Z := 23.
Definition CURLE_BAD_FUNCTION_ARGUMENT : Z := 43.

Inductive CURLoption :=
| CURLOPT_URL | CURLOPT_CUSTOMREQUEST | CURLOPT_HTTPHEADER
| CURLOPT_POSTFIELDS | CURLOPT_POSTFIELDSIZE
| CURLOPT_WRITEFUNCTION | CURLOPT_WRITEDATA
| CURLOPT_NOSIGNAL | CURLOPT_HTTP_VERSION
| CURLOPT_SSL_VERIFYPEER | CURLOPT_SSL_VERIFYHOST.

Inductive CURLINFO := CURLINFO_RESPONSE_CODE.

Definition CURL_HTTP_VERSION_1_1 : Z := 2.

(** The only callback this program ever registers. *)
Inductive callback := write_cb_fn.

(** The variadic third argument of [curl_easy_setopt]. *)
Inductive optval :=
| VString (s : option string)
| VBytes (bs : option (list byte))
| VSlist (l : N)
| VLong (n : Z)
| VFunction (f : callback)
| VObject (a : N).

(** The state of an easy handle: the options set on it and the status of
    its last exchange. *)
Record easy := mkEasy {
  o_url : option string;
  o_customrequest : option string;
  o_httpheader : N;
  o_postfields : option (list byte);
  o_postfieldsize : Z;
  o_writefunction : option callback;
  o_writedata : N;
  o_nosignal : Z;
  o_http_version : Z;
  o_ssl_verifypeer : Z;
  o_ssl_verifyhost : Z;
  i_response_code : Z
}.

Definition easy_default : easy :=
  {| o_url := None; o_customrequest := None; o_httpheader := NULL;
     o_postfields := None; o_postfieldsize := -1;
     o_writefunction := None; o_writedata := NULL;
     o_nosignal := 0; o_http_version := 0;
     o_ssl_verifypeer := 1; o_ssl_verifyhost := 2;
     i_response_code := 0 |}.

(** What the engine puts on the wire for a handle. *)
Record wire_request := mkWire {
  w_url : option string;
  w_method : option string;
  w_headers : list string;
  w_body : option (list byte)
}.

(** What the network answers: the body chunks handed to the write
    callback, the transport outcome and the HTTP status. *)
Record exchange := mkExchange {
  xfer_chunks : list (list byte);
  xfer_result : Z;
  xfer_status : Z
}.

Inductive alloc_result := AllocFail | AllocStay | AllocMove.

Record environment := mkEnv {
  alloc_plan : nat -> alloc_result;  (* outcome of the n-th allocator request *)
  acquire_ok : bool;                 (* does [curl_easy_init] deliver a handle *)
  net : exchange
}.

(** Library calls, most recent first in the log. *)
Inductive event :=
| EvMalloc (n : Z) (p : N)
| EvRealloc (p : N) (n : Z) (q : N)
| EvFree (p : N)
| EvEasyInit (h : N)
| EvEasyCleanup (h : N)
| EvSetopt (h : N) (o : CURLoption) (v : optval) (res : Z)
| EvPerform (h : N) (rq : wire_request) (res : Z)
| EvSlistAppend (l : N) (s : string) (l' : N)
| EvSlistFreeAll (l : N).

Record world := mkWorld {
  heap : gmap N (list cell);       (* live [malloc] blocks *)
  vars : gmap N object;            (* live objects outside the heap *)
  handles : gmap N easy;           (* live easy handles *)
  slists : gmap N (list string);   (* live header lists *)
  brk : N;                         (* every live address is below it *)
  ticks : nat;                     (* allocator requests served so far *)
  log : list event;
  env : environment
}.

Definition set_heap (f : gmap N (list cell) -> gmap N (list cell)) (w : world) : world :=
  mkWorld (f (heap w)) (vars w) (handles w) (slists w) (brk w) (ticks w) (log w) (env w).
Definition set_vars (f : gmap N object -> gmap N object) (w : world) : world :=
  mkWorld (heap w) (f (vars w)) (handles w) (slists w) (brk w) (ticks w) (log w) (env w).
Definition set_handles (f : gmap N easy -> gmap N easy) (w : world) : world :=
  mkWorld (heap w) (vars w) (f (handles w)) (slists w) (brk w) (ticks w) (log w) (env w).
Definition set_slists (f : gmap N (list string) -> gmap N (list string)) (w : world) : world :=
  mkWorld (heap w) (vars w) (handles w) (f (slists w)) (brk w) (ticks w) (log w) (env w).
Definition set_brk (f : N -> N) (w : world) : world :=
  mkWorld (heap w) (vars w) (handles w) (slists w) (f (brk w)) (ticks w) (log w) (env w).
Definition set_ticks (f : nat -> nat) (w : world) : world :=
  mkWorld (heap w) (vars w) (handles w) (slists w) (brk w) (f (ticks w)) (log w) (env w).
Definition set_log (f : list event -> list event) (w : world) : world :=
  mkWorld (heap w) (vars w) (handles w) (slists w) (brk w) (ticks w) (f (log w)) (env w).

(** ** The monad of C computations

    A computation transforms the world and yields a value, or has no
    defined behaviour ([None]): a dangling pointer, an out-of-bounds
    access, a mistyped variadic argument. *)

Definition M (A : Type) : Type := world -> option (A * world).

Definition ret {A} (a : A) : M A := fun w => Some (a, w).
Definition bind {A B} (c : M A) (k : A -> M B) : M B :=
  fun w => match c w with
           | Some (a, w') => k a w'
           | None => None
           end.

Notation "'let*' x := c 'in' k" := (bind c (fun x => k))
  (at level 10, x name, c at level 100, k at level 200).
Notation "c >> k" := (bind c (fun _ => k))
  (at level 100, k at level 200, right associativity).

Definition undefined {A} : M A := fun _ => None.
Definition gets {A} (f : world -> A) : M A := fun w => Some (f w, w).
Definition modify (f : world -> world) : M unit := fun w => Some (tt, f w).
Definition emit (e : event) : M unit := modify (set_log (cons e)).
Definition fresh : M N := fun w => Some (brk w, set_brk N.succ w).
Definition next_alloc : M alloc_result :=
  fun w => Some (alloc_plan (env w) (ticks w), set_ticks S w).
Definition defined {A} (o : option A) : M A :=
  match o with Some a => ret a | None => undefined end.

(** ** The C library *)

Definition resize (n : Z) (blk : list cell) : list cell :=
  take (Z.to_nat n) blk ++ replicate (Z.to_nat n - length blk)%nat None.

Definition malloc (n : Z) : M N :=
  let* d := next_alloc in
  let* p := match d with
            | AllocFail => ret NULL
            | _ => let* p := fresh in
                   modify (set_heap (insert p (replicate (Z.to_nat n) None))) >>
                   ret p
            end in
  emit (EvMalloc n p) >> ret p.

(** [realloc(NULL, n)] allocates; a size of zero has no defined
    behaviour; on failure the old block is left as it is. *)
Definition realloc (p : N) (n : Z) : M N :=
  if n =? 0 then undefined else
  let* old := if N.eqb p NULL then ret []
              else let* blk := gets (fun w => heap w !! p) in defined blk in
  let* d := next_alloc in
  let* q := match d with
            | AllocFail => ret NULL
            | AllocStay =>
                if N.eqb p NULL
                then let* q := fresh in
                     modify (set_heap (insert q (resize n old))) >> ret q
                else modify (set_heap (insert p (resize n old))) >> ret p
            | AllocMove =>
                let* q := fresh in
                modify (set_heap (fun h => insert q (resize n old)
                                             (if N.eqb p NULL then h else delete p h))) >>
                ret q
            end in
  emit (EvRealloc p n q) >> ret q.

Definition free (p : N) : M unit :=
  (if N.eqb p NULL then ret tt
   else let* blk := gets (fun w => heap w !! p) in
        let* _ := defined blk in
        modify (set_heap (delete p))) >>
  emit (EvFree p).

(** Writing [bs] into block [p] from offset [off] on. *)
Definition store_bytes (p : N) (off : Z) (bs : list byte) : M unit :=
  let* blk := gets (fun w => heap w !! p) in
  let* blk := defined blk in
  if (0 <=? off) && (off + len bs <=? len blk)
  then modify (set_heap (insert p
         (take (Z.to_nat off) blk ++ map Some bs ++ drop (Z.to_nat (off + len bs)) blk)))
  else undefined.

(** [memcpy(&p[off], src, n)], where [src] lists the bytes readable at
    the source pointer. *)
Definition memcpy (p : N) (off : Z) (src : list byte) (n : Z) : M unit :=
  if n <=? len src then store_bytes p off (take (Z.to_nat n) src) else undefined.

Fixpoint strlen_nat (bs : list byte) : option nat :=
  match bs with
  | [] => None
  | b :: bs' => if Byte.eqb b x00 then Some O else S <$> strlen_nat bs'
  end.

(** [strlen] scans for the first zero byte; an object without one makes
    the scan leave the object. *)
Definition strlen (bs : list byte) : M Z :=
  let* n := defined (strlen_nat bs) in ret (size_t (Z.of_nat n)).

(** Automatic and caller-owned objects. *)
Definition alloca (o : object) : M N :=
  let* a := fresh in modify (set_vars (insert a o)) >> ret a.
Definition dealloca (a : N) : M unit := modify (set_vars (delete a)).

Definition load_Buffer (a : N) : M Buffer :=
  let* o := gets (fun w => vars w !! a) in
  match o with Some (OBuffer b) => ret b | _ => undefined end.
Definition store_Buffer (a : N) (b : Buffer) : M unit :=
  let* _ := load_Buffer a in modify (set_vars (insert a (OBuffer b))).
Definition store_ptr (a : N) (p : N) : M unit :=
  let* o := gets (fun w => vars w !! a) in
  match o with Some (OPtr _) => modify (set_vars (insert a (OPtr p))) | _ => undefined end.
Definition store_size (a : N) (n : Z) : M unit :=
  let* o := gets (fun w => vars w !! a) in
  match o with Some (OSize _) => modify (set_vars (insert a (OSize n))) | _ => undefined end.
Definition store_long (a : N) (n : Z) : M unit :=
  let* o := gets (fun w => vars w !! a) in
  match o with Some (OLong _) => modify (set_vars (insert a (OLong n))) | _ => undefined end.

(** ** The accumulating write callback

    [ptr] lists the bytes readable at the chunk pointer; [userdata] is
    the address of the [Buffer]. *)
Definition write_cb (ptr : list byte) (size' nmemb : Z) (userdata : N) : M Z :=
  let realsize := size_t (size' * nmemb) in
  let mem := userdata in
  let* b := load_Buffer mem in
  let* ptr_new := realloc (data b) (size_t (size b + realsize + 1)) in
  if N.eqb ptr_new NULL then ret 0 else
  store_Buffer mem (mkBuffer ptr_new (size b)) >>
  let* b := load_Buffer mem in
  memcpy (data b) (size b) ptr realsize >>
  store_Buffer mem (mkBuffer (data b) (size_t (size b + realsize))) >>
  let* b := load_Buffer mem in
  store_bytes (data b) (size b) [x00] >>
  ret realsize.

Definition call (f : callback) : list byte -> Z -> Z -> N -> M Z :=
  match f with write_cb_fn => write_cb end.

(** ** The libcurl engine *)

Definition set_option (o : CURLoption) (v : optval) (e : easy) : option easy :=
  match o, v with
  | CURLOPT_URL, VString s =>
      Some (mkEasy s (o_customrequest e) (o_httpheader e) (o_postfields e)
              (o_postfieldsize e) (o_writefunction e) (o_writedata e) (o_nosignal e)
              (o_http_version e) (o_ssl_verifypeer e) (o_ssl_verifyhost e) (i_response_code e))
  | CURLOPT_CUSTOMREQUEST, VString s =>
      Some (mkEasy (o_url e) s (o_httpheader e) (o_postfields e)
              (o_postfieldsize e) (o_writefunction e) (o_writedata e) (o_nosignal e)
              (o_http_version e) (o_ssl_verifypeer e) (o_ssl_verifyhost e) (i_response_code e))
  | CURLOPT_HTTPHEADER, VSlist l =>
      Some (mkEasy (o_url e) (o_customrequest e) l (o_postfields e)
              (o_postfieldsize e) (o_writefunction e) (o_writedata e) (o_nosignal e)
              (o_http_version e) (o_ssl_verifypeer e) (o_ssl_verifyhost e) (i_response_code e))
  | CURLOPT_POSTFIELDS, VBytes bs =>
      Some (mkEasy (o_url e) (o_customrequest e) (o_httpheader e) bs
              (o_postfieldsize e) (o_writefunction e) (o_writedata e) (o_nosignal e)
              (o_http_version e) (o_ssl_verifypeer e) (o_ssl_verifyhost e) (i_response_code e))
  | CURLOPT_POSTFIELDSIZE, VLong n =>
      Some (mkEasy (o_url e) (o_customrequest e) (o_httpheader e) (o_postfields e)
              n (o_writefunction e) (o_writedata e) (o_nosignal e)
              (o_http_version e) (o_ssl_verifypeer e) (o_ssl_verifyhost e) (i_response_code e))
  | CURLOPT_WRITEFUNCTION, VFunction f =>
      Some (mkEasy (o_url e) (o_customrequest e) (o_httpheader e) (o_postfields e)
              (o_postfieldsize e) (Some f) (o_writedata e) (o_nosignal e)
              (o_http_version e) (o_ssl_verifypeer e) (o_ssl_verifyhost e) (i_response_code e))
  | CURLOPT_WRITEDATA, VObject a =>
      Some (mkEasy (o_url e) (o_customrequest e) (o_httpheader e) (o_postfields e)
              (o_postfieldsize e) (o_writefunction e) a (o_nosignal e)
              (o_http_version e) (o_ssl_verifypeer e) (o_ssl_verifyhost e) (i_response_code e))
  | CURLOPT_NOSIGNAL, VLong n =>
      Some (mkEasy (o_url e) (o_customrequest e) (o_httpheader e) (o_postfields e)
              (o_postfieldsize e) (o_writefunction e) (o_writedata e) n
              (o_http_version e) (o_ssl_verifypeer e) (o_ssl_verifyhost e) (i_response_code e))
  | CURLOPT_HTTP_VERSION, VLong n =>
      Some (mkEasy (o_url e) (o_customrequest e) (o_httpheader e) (o_postfields e)
              (o_postfieldsize e) (o_writefunction e) (o_writedata e) (o_nosignal e)
              n (o_ssl_verifypeer e) (o_ssl_verifyhost e) (i_response_code e))
  | CURLOPT_SSL_VERIFYPEER, VLong n =>
      Some (mkEasy (o_url e) (o_customrequest e) (o_httpheader e) (o_postfields e)
              (o_postfieldsize e) (o_writefunction e) (o_writedata e) (o_nosignal e)
              (o_http_version e) n (o_ssl_verifyhost e) (i_response_code e))
  | CURLOPT_SSL_VERIFYHOST, VLong n =>
      Some (mkEasy (o_url e) (o_customrequest e) (o_httpheader e) (o_postfields e)
              (o_postfieldsize e) (o_writefunction e) (o_writedata e) (o_nosignal e)
              (o_http_version e) (o_ssl_verifypeer e) n (i_response_code e))
  | _, _ => None
  end.

Definition set_response_code (s : Z) (e : easy) : easy :=
  mkEasy (o_url e) (o_customrequest e) (o_httpheader e) (o_postfields e)
    (o_postfieldsize e) (o_writefunction e) (o_writedata e) (o_nosignal e)
    (o_http_version e) (o_ssl_verifypeer e) (o_ssl_verifyhost e) s.

Definition live_handle (h : N) : M easy :=
  let* e := gets (fun w => handles w !! h) in defined e.

Definition curl_easy_init : M N :=
  let* ok := gets (fun w => acquire_ok (env w)) in
  let* h := if ok : bool
            then let* h := fresh in
                 modify (set_handles (insert h easy_default)) >> ret h
            else ret NULL in
  emit (EvEasyInit h) >> ret h.

Definition curl_easy_cleanup (h : N) : M unit :=
  (if N.eqb h NULL then ret tt
   else let* _ := live_handle h in modify (set_handles (delete h))) >>
  emit (EvEasyCleanup h).

Definition curl_easy_setopt (h : N) (o : CURLoption) (v : optval) : M Z :=
  let* res := if N.eqb h NULL then ret CURLE_BAD_FUNCTION_ARGUMENT
              else let* e := live_handle h in
                   let* e' := defined (set_option o v e) in
                   modify (set_handles (insert h e')) >> ret CURLE_OK in
  emit (EvSetopt h o v res) >> ret res.

(** The header lines the engine sends for a list pointer. *)
Definition header_lines (l : N) : M (list string) :=
  if N.eqb l NULL then ret []
  else let* hs := gets (fun w => slists w !! l) in defined hs.

(** The request body the engine sends: [CURLOPT_POSTFIELDSIZE] bytes from
    [CURLOPT_POSTFIELDS], or up to the first zero byte when the size was
    left at -1. *)
Definition wire_body (e : easy) : M (option (list byte)) :=
  match o_postfields e with
  | None => ret None
  | Some bs =>
      if o_postfieldsize e <? 0
      then let* n := strlen bs in ret (Some (take (Z.to_nat n) bs))
      else if o_postfieldsize e <=? len bs
           then ret (Some (take (Z.to_nat (o_postfieldsize e)) bs))
           else undefined
  end.

(** The engine hands the body chunks to the sink one by one and stops at
    the first chunk the sink does not accept in full.  The result lists
    what the sink returned. *)
Fixpoint deliver (f : callback) (userdata : N) (chunks : list (list byte)) : M (list Z) :=
  match chunks with
  | [] => ret []
  | c :: cs =>
      let* n := call f c 1 (len c) userdata in
      if n =? len c
      then let* ns := deliver f userdata cs in ret (n :: ns)
      else ret [n]
  end.

(** One transfer.  The engine reads the header list and the body off the
    handle, hands the chunks of the answer to the write callback, records
    the status on the handle and reports the transport outcome, or
    [CURLE_WRITE_ERROR] when the callback has refused a chunk.  The answer
    is the environment's [net].  It stands for all the engine decides
    about the request as configured, its own refusals included (for a
    handle without a URL libcurl answers [CURLE_URL_MALFORMAT] with no
    chunk and status 0), and is not computed from the options here. *)
Definition curl_easy_perform (h : N) : M Z :=
  if N.eqb h NULL then ret CURLE_BAD_FUNCTION_ARGUMENT else
  let* e := live_handle h in
  let* hs := header_lines (o_httpheader e) in
  let* body := wire_body e in
  let* x := gets (fun w => net (env w)) in
  let* accepted := match o_writefunction e with
                   | Some f => deliver f (o_writedata e) (xfer_chunks x)
                   | None => ret (map len (xfer_chunks x))
                   end in
  modify (set_handles (alter (set_response_code (xfer_status x)) h)) >>
  let res := if bool_decide (accepted = map len (xfer_chunks x))
             then xfer_result x else CURLE_WRITE_ERROR in
  emit (EvPerform h (mkWire (o_url e) (o_customrequest e) hs body) res) >>
  ret res.

Definition curl_easy_getinfo (h : N) (info : CURLINFO) (value : N) : M Z :=
  if N.eqb h NULL then ret CURLE_BAD_FUNCTION_ARGUMENT else
  let* e := live_handle h in
  match info with
  | CURLINFO_RESPONSE_CODE => store_long value (i_response_code e) >> ret CURLE_OK
  end.

Definition curl_slist_append (l : N) (s : string) : M N :=
  let* d := next_alloc in
  let* l' := match d with
             | AllocFail => ret NULL
             | _ => if N.eqb l NULL
                    then let* a := fresh in
                         modify (set_slists (insert a [s])) >> ret a
                    else let* hs := gets (fun w => slists w !! l) in
                         let* hs := defined hs in
                         modify (set_slists (insert l (hs ++ [s]))) >> ret l
             end in
  emit (EvSlistAppend l s l') >> ret l'.

Definition curl_slist_free_all (l : N) : M unit :=
  (if N.eqb l NULL then ret tt
   else let* hs := gets (fun w => slists w !! l) in
        let* _ := defined hs in
        modify (set_slists (delete l))) >>
  emit (EvSlistFreeAll l).

(** ** The shim *)

Definition curl_shim_init : M N := curl_easy_init.
Definition curl_shim_cleanup (handle : N) : M unit := curl_easy_cleanup handle.
Definition curl_shim_perform (handle : N) : M Z := curl_easy_perform handle.
Definition curl_shim_setopt_ptr (handle : N) (option : CURLoption) (value : optval) : M Z :=
  curl_easy_setopt handle option value.
Definition curl_shim_setopt_long (handle : N) (option : CURLoption) (value : Z) : M Z :=
  curl_easy_setopt handle option (VLong value).
Definition curl_shim_getinfo_long (handle : N) (info : CURLINFO) (value : N) : M Z :=
  curl_easy_getinfo handle info value.
Definition curl_shim_slist_append (list : N) (string : string) : M N :=
  curl_slist_append list string.
Definition curl_shim_slist_free_all (list : N) : M unit := curl_slist_free_all list.

(** [url], [method] and [payload] are what the respective pointers point
    to ([None] for a null pointer; for [payload] the bytes of the object
    from the pointer on); [headers] is the list pointer; [response] and
    [response_len] are the addresses of the caller's out-variables. *)
Definition curl_shim_simple_request (url method : option string)
    (payload : option (list byte)) (headers : N) (response response_len : N) : M Z :=
  let* curl := curl_easy_init in
  if N.eqb curl NULL then ret CURLE_FAILED_INIT else
  let* p := malloc 1 in
  let* buf := alloca (OBuffer (mkBuffer p 0)) in
  curl_easy_setopt curl CURLOPT_URL (VString url) >>
  curl_easy_setopt curl CURLOPT_CUSTOMREQUEST (VString method) >>
  (if N.eqb headers NULL then ret CURLE_OK
   else curl_easy_setopt curl CURLOPT_HTTPHEADER (VSlist headers)) >>
  match payload with
  | Some bs =>
      curl_easy_setopt curl CURLOPT_POSTFIELDS (VBytes payload) >>
      let* n := strlen bs in
      curl_easy_setopt curl CURLOPT_POSTFIELDSIZE (VLong (to_long n))
  | None => ret CURLE_OK
  end >>
  curl_easy_setopt curl CURLOPT_WRITEFUNCTION (VFunction write_cb_fn) >>
  curl_easy_setopt curl CURLOPT_WRITEDATA (VObject buf) >>
  curl_easy_setopt curl CURLOPT_NOSIGNAL (VLong 1) >>
  curl_easy_setopt curl CURLOPT_HTTP_VERSION (VLong CURL_HTTP_VERSION_1_1) >>
  curl_easy_setopt curl CURLOPT_SSL_VERIFYPEER (VLong 1) >>
  curl_easy_setopt curl CURLOPT_SSL_VERIFYHOST (VLong 2) >>
  let* res := curl_easy_perform curl in
  let* b := load_Buffer buf in
  (if res =? CURLE_OK
   then store_ptr response (data b) >> store_size response_len (size b)
   else free (data b)) >>
  curl_easy_cleanup curl >>
  dealloca buf >>
  ret res.

(** ** Vocabulary of the specification *)

(** Computations unfold when they are run on a world. *)
Arguments bind {A B} c k w /.
Arguments ret {A} a w /.
Arguments undefined {A} w /.
Arguments gets {A} f w /.
Arguments modify f w /.
Arguments emit e w /.
Arguments fresh w /.
Arguments next_alloc w /.
Arguments defined {A} !o w /.

Ltac run :=
  cbn [bind ret gets modify emit fresh next_alloc defined undefined
       set_heap set_vars set_handles set_slists set_brk set_ticks set_log
       heap vars handles slists brk ticks log env data size].

(** The block a pointer handed to [realloc] or [free] stands for. *)
Definition old_block (w : world) (p : N) : option (list cell) :=
  if N.eqb p NULL then Some [] else heap w !! p.

(** The block [write_cb] leaves behind: the old content, the chunk and
    the terminator. *)
Definition grown (blk : list cell) (sz : Z) (chunk : list byte) : list cell :=
  take (Z.to_nat sz) blk ++ map Some chunk ++ [Some x00].

(** Every live address is below [brk] and nothing lives at [NULL]. *)
Definition wf (w : world) : Prop :=
  (0 < brk w)%N /\ heap w !! NULL = None /\
  forall a, (brk w <= a)%N ->
    heap w !! a = None /\ vars w !! a = None /\
    handles w !! a = None /\ slists w !! a = None.

(** The [Buffer] at [ud] is [b] and holds the bytes [acc]: they are the
    first [size b] bytes of its block (a null [data] holds nothing). *)
Definition accumulator (w : world) (ud : N) (b : Buffer) (acc : list byte) : Prop :=
  vars w !! ud = Some (OBuffer b) /\ size b = len acc /\
  exists blk, old_block w (data b) = Some blk /\ take (length acc) blk = map Some acc.

(** The block of [b] is exactly [acc] followed by one zero byte. *)
Definition terminated (w : world) (b : Buffer) (acc : list byte) : Prop :=
  heap w !! data b = Some (map Some acc ++ [Some x00]).

Definition is_realloc (e : event) : Prop :=
  match e with EvRealloc _ _ _ => True | _ => False end.

(** What a run of the sink leaves alone: everything but the [Buffer]
    object, its block, the allocator's counters and the log, which only
    gains [realloc] calls. *)
Definition sink_frame (w w' : world) (ud : N) (b b' : Buffer) : Prop :=
  vars w' = <[ud := OBuffer b']> (vars w) /\
  delete (data b') (heap w') = delete (data b) (heap w) /\
  handles w' = handles w /\ slists w' = slists w /\ env w' = env w /\
  exists evs, log w' = evs ++ log w /\ Forall is_realloc evs.

Definition total (chunks : list (list byte)) : Z :=
  foldr (fun c s => len c + s) 0 chunks.

(** The configuration calls of [curl_shim_simple_request], followed by
    the rest [k] of the routine. *)
Definition configure_then (curl : N) (url method : option string)
    (payload : option (list byte)) (headers buf : N) (k : M Z) : M Z :=
  curl_easy_setopt curl CURLOPT_URL (VString url) >>
  curl_easy_setopt curl CURLOPT_CUSTOMREQUEST (VString method) >>
  (if N.eqb headers NULL then ret CURLE_OK
   else curl_easy_setopt curl CURLOPT_HTTPHEADER (VSlist headers)) >>
  match payload with
  | Some bs =>
      curl_easy_setopt curl CURLOPT_POSTFIELDS (VBytes payload) >>
      let* n := strlen bs in
      curl_easy_setopt curl CURLOPT_POSTFIELDSIZE (VLong (to_long n))
  | None => ret CURLE_OK
  end >>
  curl_easy_setopt curl CURLOPT_WRITEFUNCTION (VFunction write_cb_fn) >>
  curl_easy_setopt curl CURLOPT_WRITEDATA (VObject buf) >>
  curl_easy_setopt curl CURLOPT_NOSIGNAL (VLong 1) >>
  curl_easy_setopt curl CURLOPT_HTTP_VERSION (VLong CURL_HTTP_VERSION_1_1) >>
  curl_easy_setopt curl CURLOPT_SSL_VERIFYPEER (VLong 1) >>
  curl_easy_setopt curl CURLOPT_SSL_VERIFYHOST (VLong 2) >>
  k.

(** What follows the perform step. *)
Definition finish (curl buf response response_len : N) (res : Z) : M Z :=
  let* b := load_Buffer buf in
  (if res =? CURLE_OK
   then store_ptr response (data b) >> store_size response_len (size b)
   else free (data b)) >>
  curl_easy_cleanup curl >>
  dealloca buf >>
  ret res.

(** The response buffer of the routine: one byte from [malloc], length 0. *)
Definition with_buffer (k : N -> N -> M Z) : M Z :=
  let* p := malloc 1 in
  let* buf := alloca (OBuffer (mkBuffer p 0)) in
  k p buf.

(** The payload pointer is null or points to a zero-terminated object
    that fits the address space. *)
Definition payload_ok (payload : option (list byte)) : Prop :=
  match payload with
  | None => True
  | Some bs => is_Some (strlen_nat bs) /\ len bs <= SIZE_MAX
  end.

(** The header pointer is null or a live list. *)
Definition headers_ok (w : world) (headers : N) : Prop :=
  headers = NULL \/ is_Some (slists w !! headers).

(** The body the request is sent with. *)
Definition body_of (payload : option (list byte)) : option (list byte) :=
  match payload with
  | None => None
  | Some bs => Some (take (default O (strlen_nat bs)) bs)
  end.

(** The handle as the routine has configured it. *)
Definition configured (url method : option string) (payload : option (list byte))
    (headers buf : N) : easy :=
  {| o_url := url; o_customrequest := method; o_httpheader := headers;
     o_postfields := payload;
     o_postfieldsize :=
       match payload with
       | Some bs => to_long (size_t (Z.of_nat (default O (strlen_nat bs))))
       | None => -1
       end;
     o_writefunction := Some write_cb_fn; o_writedata := buf;
     o_nosignal := 1; o_http_version := CURL_HTTP_VERSION_1_1;
     o_ssl_verifypeer := 1; o_ssl_verifyhost := 2;
     i_response_code := 0 |}.

Definition is_setopt (e : event) : Prop :=
  match e with EvSetopt _ _ _ _ => True | _ => False end.

Fixpoint collect {A} (f : event -> option A) (l : list event) : list A :=
  match l with
  | [] => []
  | e :: l' => match f e with Some a => a :: collect f l' | None => collect f l' end
  end.

(** Header lists released, allocations requested, requests performed
    (most recent first). *)
Definition released : list event -> list N :=
  collect (fun e => match e with EvSlistFreeAll l => Some l | _ => None end).
Definition malloced : list event -> list (Z * N) :=
  collect (fun e => match e with EvMalloc n p => Some (n, p) | _ => None end).
Definition freed : list event -> list N :=
  collect (fun e => match e with EvFree p => Some p | _ => None end).
Definition performed : list event -> list (wire_request * Z) :=
  collect (fun e => match e with EvPerform _ rq res => Some (rq, res) | _ => None end).

(** The bodies of the requests performed, most recent first. *)
Definition sent_bodies (l : list event) : list (option (list byte)) :=
  map (fun x => w_body (fst x)) (performed l).

(** The header lines behind a list pointer. *)
Definition lines_of (w : world) (headers : N) : list string :=
  if N.eqb headers NULL then [] else default [] (slists w !! headers).

(** What a caller owes the routine: a well-formed world, a payload that
    is null or a C string, a header pointer that is null or live, two
    out-variables of the right types, and a response that fits the
    address space. *)
Definition request_ok (w : world) (payload : option (list byte))
    (headers response response_len : N) : Prop :=
  wf w /\ payload_ok payload /\ headers_ok w headers /\
  (exists o, vars w !! response = Some (OPtr o)) /\
  (exists o, vars w !! response_len = Some (OSize o)) /\
  total (xfer_chunks (net (env w))) + 1 <= SIZE_MAX.

Definition is_internal (e : event) : Prop := is_realloc e \/ is_setopt e.

(** The options [curl_shim_simple_request] sets on its handle, in call
    order; [buf] is the address of its [Buffer]. *)
Definition configuration (url method : option string) (payload : option (list byte))
    (headers buf : N) : list (CURLoption * optval) :=
  [(CURLOPT_URL, VString url); (CURLOPT_CUSTOMREQUEST, VString method)]
  ++ (if N.eqb headers NULL then [] else [(CURLOPT_HTTPHEADER, VSlist headers)])
  ++ match payload with
     | Some bs =>
         [(CURLOPT_POSTFIELDS, VBytes payload);
          (CURLOPT_POSTFIELDSIZE,
           VLong (to_long (size_t (Z.of_nat (default O (strlen_nat bs))))))]
     | None => []
     end
  ++ [(CURLOPT_WRITEFUNCTION, VFunction write_cb_fn); (CURLOPT_WRITEDATA, VObject buf);
      (CURLOPT_NOSIGNAL, VLong 1); (CURLOPT_HTTP_VERSION, VLong CURL_HTTP_VERSION_1_1);
      (CURLOPT_SSL_VERIFYPEER, VLong 1); (CURLOPT_SSL_VERIFYHOST, VLong 2)].

(** The same calls as they appear in the log (most recent first), each
    answered with [CURLE_OK]. *)
Definition config_events (h : N) (cfg : list (CURLoption * optval)) : list event :=
  reverse (map (fun ov => EvSetopt h (fst ov) (snd ov) CURLE_OK) cfg).

(** The options set so far: handle, option, value, result (most recent
    first). *)
Definition options_set : list event -> list (N * CURLoption * optval * Z) :=
  collect (fun e => match e with EvSetopt h o v r => Some (h, o, v, r) | _ => None end).

(** Handles released so far (most recent first). *)
Definition cleaned_up : list event -> list N :=
  collect (fun e => match e with EvEasyCleanup h => Some h | _ => None end).

(** ** Concrete environments and worlds *)

(** An allocator that never fails and always moves the block. *)
Definition all_ok : nat -> alloc_result := fun _ => AllocMove.

Definition hello : list byte := [x68; x65; x6c; x6c; x6f].
Definition ten_bytes : list byte := hello ++ hello.

(** Three answers of the network: an empty 200, a name that does not
    resolve, and a 500 with a ten-byte body. *)
Definition quiet : exchange := mkExchange [] CURLE_OK 200.
Definition unresolved : exchange := mkExchange [] CURLE_COULDNT_RESOLVE_HOST 0.
Definition server_error : exchange := mkExchange [ten_bytes] CURLE_OK 500.

(** A caller with its two out-variables at addresses 1 and 2. *)
Definition world0 (e : environment) : world :=
  {| heap := ∅;
     vars := {[ 1%N := OPtr NULL; 2%N := OSize (-1) ]};
     handles := ∅; slists := ∅; brk := 3%N; ticks := O; log := []; env := e |}.

(** The same caller after it has built a header list at address 3. *)
Definition world1 (e : environment) : world :=
  {| heap := ∅;
     vars := {[ 1%N := OPtr NULL; 2%N := OSize (-1) ]};
     handles := ∅;
     slists := {[ 3%N := ["Accept: */*"%string] ]};
     brk := 4%N; ticks := O; log := []; env := e |}.

(** A fresh one-byte buffer at address 1 with its [Buffer] at address 2. *)
Definition buffer_world (e : environment) : world :=
  {| heap := {[ 1%N := [None] ]};
     vars := {[ 2%N := OBuffer (mkBuffer 1 0) ]};
     handles := ∅; slists := ∅; brk := 3%N; ticks := O; log := []; env := e |}.

(** * Properties *)

(** ** Running computations *)

Lemma size_t_small z : 0 <= z <= SIZE_MAX -> size_t z = z.
Proof. unfold size_t, SIZE_MAX. intros. apply Z.mod_small. lia. Qed.

Lemma size_t_range z : 0 <= size_t z <= SIZE_MAX.
Proof. unfold size_t, SIZE_MAX. pose proof (Z.mod_pos_bound z (2 ^ 64)). lia. Qed.

Lemma write_cb_fail w ud b blk ptr s n :
  vars w !! ud = Some (OBuffer b) ->
  old_block w (data b) = Some blk ->
  size_t (size b + size_t (s * n) + 1) <> 0 ->
  alloc_plan (env w) (ticks w) = AllocFail ->
  write_cb ptr s n ud w =
    Some (0, set_log (cons (EvRealloc (data b) (size_t (size b + size_t (s * n) + 1)) NULL))
               (set_ticks S w)).
Proof.
  intros Hb Hold Hn Hplan. destruct w as [hp vs hs sl bk tk lg en].
  unfold old_block in Hold. cbn [heap vars env ticks] in *.
  unfold write_cb, load_Buffer, realloc. run.
  rewrite Hb. run.
  apply Z.eqb_neq in Hn. rewrite Hn.
  destruct (N.eqb (data b) NULL) eqn:Hp; run.
  - rewrite Hplan. run. reflexivity.
  - rewrite Hold. run. rewrite Hplan. run. reflexivity.
Qed.

Lemma length_resize n blk : 0 <= n -> len (resize n blk) = n.
Proof.
  intros Hn. unfold len, resize.
  rewrite length_app, length_take, length_replicate. lia.
Qed.

Lemma take_resize (k : nat) n blk :
  (k <= length blk)%nat -> Z.of_nat k <= n -> take k (resize n blk) = take k blk.
Proof.
  intros Hk Hn. unfold resize.
  rewrite take_app_le by (rewrite length_take; lia).
  rewrite take_take. f_equal. lia.
Qed.

(** The three writes of a successful [write_cb] (the resized block, the
    copied chunk, the terminator) add up to [grown]. *)
Lemma grown_block blk sz (c : list byte) :
  0 <= sz -> sz <= len blk ->
  let R := resize (sz + len c + 1) blk in
  let R1 := take (Z.to_nat sz) R ++ map Some c ++ drop (Z.to_nat (sz + len c)) R in
  len R1 = sz + len c + 1 /\
  take (Z.to_nat (sz + len c)) R1 ++ map Some [x00]
    ++ drop (Z.to_nat (sz + len c + len [x00])) R1 = grown blk sz c.
Proof.
  intros H0 Hle R R1. subst R1.
  remember R as R' eqn:ER. subst R.
  assert (HR : len R' = sz + len c + 1)
    by (subst R'; apply length_resize; unfold len; lia).
  assert (HT : take (Z.to_nat sz) R' = take (Z.to_nat sz) blk)
    by (subst R'; apply take_resize; unfold len in *; lia).
  clear ER. unfold len in *.
  split.
  { rewrite !length_app, length_take, length_map, length_drop. lia. }
  unfold grown.
  rewrite (drop_ge (_ ++ _)).
  2:{ rewrite !length_app, length_take, length_map, length_drop. cbn [length]. lia. }
  rewrite app_nil_r. change (map Some [x00]) with [Some x00].
  rewrite (app_assoc (take _ blk)). f_equal.
  rewrite app_assoc, take_app_length'.
  - by rewrite HT.
  - rewrite length_app, length_take, length_map. lia.
Qed.

Lemma write_cb_ok w ud b blk ptr s n :
  vars w !! ud = Some (OBuffer b) ->
  old_block w (data b) = Some blk ->
  0 <= size b -> size b <= len blk ->
  size_t (s * n) <= len ptr ->
  size b + size_t (s * n) + 1 <= SIZE_MAX ->
  (0 < brk w)%N ->
  alloc_plan (env w) (ticks w) <> AllocFail ->
  exists q w',
    write_cb ptr s n ud w = Some (size_t (s * n), w') /\
    (q = data b /\ q <> NULL /\ brk w' = brk w \/ q = brk w /\ brk w' = N.succ (brk w)) /\
    heap w' = <[q := grown blk (size b) (take (Z.to_nat (size_t (s * n))) ptr)]>
                (if N.eqb (data b) NULL then heap w else delete (data b) (heap w)) /\
    vars w' = <[ud := OBuffer (mkBuffer q (size b + size_t (s * n)))]> (vars w) /\
    handles w' = handles w /\ slists w' = slists w /\ env w' = env w /\
    ticks w' = S (ticks w) /\
    log w' = EvRealloc (data b) (size b + size_t (s * n) + 1) q :: log w.
Proof.
  intros Hb Hold H0 Hle Hptr Hmax Hbrk Hplan.
  pose proof (size_t_range (s * n)) as Hrs.
  set (rs := size_t (s * n)) in *.
  set (c := take (Z.to_nat rs) ptr).
  assert (Hc : len c = rs) by (unfold c, len in *; rewrite length_take; lia).
  destruct (grown_block blk (size b) c H0 Hle) as [HR1 HR2]. rewrite Hc in HR1, HR2.
  assert (HR : len (resize (size b + rs + 1) blk) = size b + rs + 1)
    by (apply length_resize; lia).
  destruct w as [hp vs hs sl bk tk lg en].
  unfold old_block in Hold. cbn [heap vars env ticks brk] in *.
  assert (Hn : (size_t (size b + rs + 1) =? 0) = false).
  { rewrite size_t_small by lia. apply Z.eqb_neq. lia. }
  assert (Hbk : N.eqb bk NULL = false) by (apply N.eqb_neq; unfold NULL; lia).
  assert (Hc1 : (rs <=? len ptr) = true) by (apply Z.leb_le; lia).
  assert (Hc2 : (0 <=? size b) && (size b + len c <=? len (resize (size b + rs + 1) blk)) = true).
  { rewrite HR, Hc. apply andb_true_iff; split; apply Z.leb_le; lia. }
  assert (Hc3 : forall R1 : list cell, len R1 = size b + rs + 1 ->
            (0 <=? size b + rs) && (size b + rs + len [x00] <=? len R1) = true).
  { intros R1 ->. apply andb_true_iff; split; apply Z.leb_le; unfold len; cbn [length]; lia. }
  unfold write_cb, load_Buffer, store_Buffer, load_Buffer, realloc, memcpy, store_bytes.
  fold rs. run. rewrite Hb. run. rewrite Hn.
  rewrite (size_t_small (size b + rs + 1)) by lia.
  destruct (N.eqb (data b) NULL) eqn:Hp; run;
    [injection Hold as <- | rewrite Hold; run];
    (destruct (alloc_plan en tk) eqn:Hd; [congruence | |]); run;
    rewrite ?Hbk, ?Hp;
    repeat (run; fold c;
            first [ rewrite lookup_insert_eq | rewrite Hb | rewrite Hc1 | rewrite Hc2
                  | rewrite (size_t_small (size b + rs)) by lia
                  | rewrite Hc3 by (rewrite Hc; exact HR1) ]);
    rewrite ?Hc, ?HR2; run.
  - exists bk. eexists. split; [reflexivity|]. run. rewrite !insert_insert_eq. auto 10.
  - exists bk. eexists. split; [reflexivity|]. run. rewrite !insert_insert_eq. auto 10.
  - exists (data b). eexists. split; [reflexivity|]. run.
    apply N.eqb_neq in Hp. rewrite !insert_insert_eq, insert_delete_eq. auto 10.
  - exists bk. eexists. split; [reflexivity|]. run. rewrite !insert_insert_eq. auto 10.
Qed.

(** ** Invariants *)

Lemma len_app {A} (l k : list A) : len (l ++ k) = len l + len k.
Proof. unfold len. rewrite length_app. lia. Qed.

Lemma len_nonneg {A} (l : list A) : 0 <= len l.
Proof. unfold len. lia. Qed.

Lemma total_nonneg chunks : 0 <= total chunks.
Proof.
  induction chunks as [|c cs IH]; [done|].
  change (0 <= len c + total cs). pose proof (len_nonneg c). lia.
Qed.

Lemma len_concat chunks : len (concat chunks) = total chunks.
Proof.
  induction chunks as [|c cs IH]; [reflexivity|].
  change (len (c ++ concat cs) = len c + total cs). by rewrite len_app, IH.
Qed.

Lemma accumulator_bounds w ud b acc :
  wf w -> accumulator w ud b acc ->
  (ud < brk w)%N /\ (data b < brk w)%N /\ 0 <= size b /\
  exists blk, old_block w (data b) = Some blk /\ size b <= len blk /\
              take (Z.to_nat (size b)) blk = map Some acc.
Proof.
  intros (Hbrk & Hnull & Hfresh) (Hb & Hsz & blk & Hold & Htake).
  repeat split.
  - destruct (N.ltb_spec ud (brk w)) as [|Hge]; [done|].
    apply Hfresh in Hge as (_ & Hv & _). congruence.
  - unfold old_block in Hold. destruct (N.eqb_spec (data b) NULL) as [->|Hne]; [done|].
    destruct (N.ltb_spec (data b) (brk w)) as [|Hge]; [done|].
    apply Hfresh in Hge as (Hh & _). congruence.
  - rewrite Hsz. apply len_nonneg.
  - exists blk. split; [done|]. rewrite Hsz. unfold len. rewrite Nat2Z.id. split; [|done].
    apply (f_equal length) in Htake. rewrite length_take, length_map in Htake. lia.
Qed.

Lemma delete_or_not (hp : gmap N (list cell)) (p : N) :
  hp !! NULL = None ->
  (if N.eqb p NULL then hp else delete p hp) = delete p hp.
Proof.
  intros Hnull. destruct (N.eqb_spec p NULL) as [->|]; [|done].
  by rewrite delete_id.
Qed.

(** A successful call re-establishes the invariants around the grown
    block [q]. *)
Lemma grown_invariants w w' ud b acc (c : list byte) q e :
  wf w -> accumulator w ud b acc ->
  (q = data b /\ q <> NULL /\ brk w' = brk w \/ q = brk w /\ brk w' = N.succ (brk w)) ->
  heap w' = <[q := map Some (acc ++ c) ++ [Some x00]]> (delete (data b) (heap w)) ->
  vars w' = <[ud := OBuffer (mkBuffer q (size b + len c))]> (vars w) ->
  handles w' = handles w -> slists w' = slists w -> env w' = env w ->
  log w' = e :: log w -> is_realloc e ->
  wf w' /\
  accumulator w' ud (mkBuffer q (size b + len c)) (acc ++ c) /\
  sink_frame w w' ud b (mkBuffer q (size b + len c)) /\
  q <> NULL /\ terminated w' (mkBuffer q (size b + len c)) (acc ++ c).
Proof.
  intros Hwf Hacc Hq Hheap Hvars Hhs Hsl Henv Hlog He.
  destruct (accumulator_bounds _ _ _ _ Hwf Hacc) as (Hud & Hp & H0 & blk & Hold & Hle & Htake).
  destruct Hacc as (Hb & Hsz & Hblk).
  destruct Hwf as (Hbrk & Hnull & Hfresh).
  assert (Hqn : q <> NULL)
    by (unfold NULL in *; destruct Hq as [(-> & ? & _)|(-> & _)]; [done | lia]).
  assert (Hqlt : (q < brk w')%N) by (destruct Hq as [(-> & _ & ->)|(-> & ->)]; lia).
  assert (Hmono : (brk w <= brk w')%N) by (destruct Hq as [(_ & _ & ->)|(_ & ->)]; lia).
  assert (Hlook : heap w' !! q = Some (map Some (acc ++ c) ++ [Some x00]))
    by (rewrite Hheap; apply lookup_insert_eq).
  split_and!; try done.
  - (* wf *)
    unfold wf. rewrite Hheap, Hvars, Hhs, Hsl. split_and!.
    + lia.
    + rewrite lookup_insert_ne by done. apply lookup_delete_None. by right.
    + intros a Ha. destruct (Hfresh a ltac:(lia)) as (? & ? & ? & ?).
      split_and!; try done.
      * rewrite lookup_insert_ne by lia. apply lookup_delete_None. by right.
      * rewrite lookup_insert_ne by lia. done.
  - (* accumulator *)
    unfold accumulator, old_block. cbn [data size].
    rewrite Hvars, lookup_insert_eq, Hsz, len_app.
    apply N.eqb_neq in Hqn. rewrite Hqn, Hlook.
    split_and!; try done.
    eexists. split; [done|]. apply take_app_length'. by rewrite length_map.
  - (* frame *)
    unfold sink_frame. cbn [data]. split_and!; try done.
    + rewrite Hheap, delete_insert_eq.
      destruct Hq as [(-> & _ & _)|(-> & _)].
      * apply delete_delete_eq.
      * apply delete_id. apply lookup_delete_None. right.
        by destruct (Hfresh (brk w) ltac:(lia)) as (? & _).
    + exists [e]. split; [done|]. by constructor.
Qed.

(** One call of the sink, as the engine makes it. *)
Lemma sink_step w ud b acc (c : list byte) :
  wf w -> accumulator w ud b acc ->
  len acc + len c + 1 <= SIZE_MAX ->
  exists r w' b' acc',
    write_cb c 1 (len c) ud w = Some (r, w') /\
    wf w' /\ accumulator w' ud b' acc' /\ sink_frame w w' ud b b' /\
    ticks w' = S (ticks w) /\
    (alloc_plan (env w) (ticks w) = AllocFail /\
       r = 0 /\ b' = b /\ acc' = acc /\ heap w' = heap w /\ vars w' = vars w /\
       brk w' = brk w
     \/
     alloc_plan (env w) (ticks w) <> AllocFail /\
       r = len c /\ acc' = acc ++ c /\ data b' <> NULL /\ terminated w' b' acc').
Proof.
  intros Hwf Hacc Hmax.
  destruct (accumulator_bounds _ _ _ _ Hwf Hacc) as (Hud & Hp & H0 & blk & Hold & Hle & Htake).
  pose proof Hacc as (Hb & Hsz & Hblk).
  pose proof Hwf as (Hbrk & Hnull & Hfresh).
  pose proof (len_nonneg c) as Hc0.
  assert (Hrs : size_t (1 * len c) = len c).
  { rewrite Z.mul_1_l. apply size_t_small. pose proof (len_nonneg acc). lia. }
  assert (Hcases : alloc_plan (env w) (ticks w) = AllocFail \/
                   alloc_plan (env w) (ticks w) <> AllocFail)
    by (destruct (alloc_plan (env w) (ticks w)); [by left | by right | by right]).
  destruct Hcases as [Hplan|Hplan].
  - (* the reallocation fails *)
    exists 0, (set_log (cons (EvRealloc (data b) (size b + len c + 1) NULL)) (set_ticks S w)), b, acc.
    split.
    { assert (Hn : size_t (size b + size_t (1 * len c) + 1) <> 0)
        by (rewrite Hrs, size_t_small; lia).
      rewrite (write_cb_fail _ _ _ _ c 1 (len c) Hb Hold Hn Hplan), Hrs, size_t_small by lia.
      done. }
    destruct w as [hp vs hs sl bk tk lg en]. unfold accumulator, sink_frame, wf, old_block in *.
    run. cbn [heap vars handles slists brk ticks log env] in *.
    rewrite insert_id by done.
    split_and!; eauto 10.
    exists [EvRealloc (data b) (size b + len c + 1) NULL]. split; [done|].
    repeat constructor.
  - (* the reallocation succeeds, in place or not *)
    destruct (write_cb_ok w ud b blk c 1 (len c) Hb Hold H0 Hle
                ltac:(rewrite Hrs; lia) ltac:(rewrite Hrs; lia) Hbrk Hplan)
      as (q & w' & Hrun & Hq & Hheap & Hvars & Hhs & Hsl & Henv & Htk & Hlog).
    rewrite Hrs in *.
    rewrite (take_ge c) in Hheap by (unfold len; lia).
    rewrite delete_or_not in Hheap by done.
    assert (Hgrown : grown blk (size b) c = map Some (acc ++ c) ++ [Some x00])
      by (unfold grown; rewrite Htake, map_app, app_assoc; done).
    rewrite Hgrown in Hheap.
    exists (len c), w', (mkBuffer q (size b + len c)), (acc ++ c).
    split; [exact Hrun|].
    destruct (grown_invariants w w' ud b acc c q _ Hwf Hacc Hq Hheap Hvars Hhs Hsl Henv Hlog I)
      as (? & ? & ? & ? & ?).
    split_and!; try done. by right.
Qed.

Lemma sink_frame_refl w ud b :
  vars w !! ud = Some (OBuffer b) -> sink_frame w w ud b b.
Proof.
  intros Hb. unfold sink_frame. rewrite insert_id by done.
  split_and!; try done. by exists [].
Qed.

Lemma sink_frame_trans w1 w2 w3 ud b1 b2 b3 :
  sink_frame w1 w2 ud b1 b2 -> sink_frame w2 w3 ud b2 b3 -> sink_frame w1 w3 ud b1 b3.
Proof.
  intros (Hv1 & Hh1 & Hhs1 & Hsl1 & He1 & evs1 & Hl1 & Hf1)
         (Hv2 & Hh2 & Hhs2 & Hsl2 & He2 & evs2 & Hl2 & Hf2).
  unfold sink_frame. rewrite Hv2, Hv1, insert_insert_eq. split_and!; try congruence.
  exists (evs2 ++ evs1). split.
  - by rewrite Hl2, Hl1, app_assoc.
  - by apply Forall_app.
Qed.

(** The engine's delivery loop over any chunk sequence, whatever the
    allocator does. *)
Lemma deliver_spec ud chunks : forall w b acc,
  wf w -> accumulator w ud b acc ->
  len acc + total chunks + 1 <= SIZE_MAX ->
  exists rets w' b' acc',
    deliver write_cb_fn ud chunks w = Some (rets, w') /\
    wf w' /\ accumulator w' ud b' acc' /\ sink_frame w w' ud b b' /\
    (rets = map len chunks -> acc' = acc ++ concat chunks) /\
    ((forall i, alloc_plan (env w) (ticks w + i) <> AllocFail) ->
       rets = map len chunks /\
       (chunks <> [] \/ terminated w b acc -> terminated w' b' acc')) /\
    (chunks = [] -> w' = w /\ b' = b /\ rets = []).
Proof.
  induction chunks as [|c cs IH]; intros w b acc Hwf Hacc Hmax.
  - exists [], w, b, acc. split_and!; try done.
    + apply sink_frame_refl, Hacc.
    + by rewrite app_nil_r.
    + intros _. split; [done|]. by intros [|].
  - change (total (c :: cs)) with (len c + total cs) in Hmax.
    pose proof (total_nonneg cs) as Hcs. pose proof (len_nonneg c) as Hc.
    destruct (sink_step w ud b acc c Hwf Hacc ltac:(lia))
      as (r & w1 & b1 & acc1 & Hrun & Hwf1 & Hacc1 & Hfr1 & Htk1 & Hcase).
    assert (Henv1 : env w1 = env w) by (destruct Hfr1 as (_ & _ & _ & _ & ? & _); done).
    cbn [deliver call bind]. rewrite Hrun.
    destruct (Z.eqb_spec r (len c)) as [Hr|Hr].
    + (* the chunk was accepted *)
      assert (Hacc1' : acc1 = acc ++ c).
      { destruct Hcase as [(_ & -> & _ & -> & _)|(_ & _ & -> & _)]; [|done].
        assert (Hnil : length c = O) by (unfold len in Hr; lia).
        apply nil_length_inv in Hnil as ->. by rewrite app_nil_r. }
      destruct (IH w1 b1 acc1 Hwf1 Hacc1) as (ns & w2 & b2 & acc2 & Hrun2 & Hwf2 & Hacc2 & Hfr2 & Hall & Hok & _).
      { rewrite Hacc1', len_app. lia. }
      run. rewrite Hrun2. run.
      exists (r :: ns), w2, b2, acc2. split_and!; try done.
      * eapply sink_frame_trans; eauto.
      * intros [= _ Hns]. rewrite (Hall Hns), Hacc1'. cbn [concat]. by rewrite app_assoc.
      * intros Hplan.
        destruct Hok as [Hns Hterm].
        { intros i. rewrite Henv1, Htk1. replace (S (ticks w) + i)%nat with (ticks w + S i)%nat by lia.
          apply Hplan. }
        split; [by rewrite Hr, Hns|].
        intros _. apply Hterm. right.
        destruct Hcase as [(Hfail & _)|(_ & _ & _ & _ & Ht)]; [|done].
        specialize (Hplan O). rewrite Nat.add_0_r in Hplan. done.
    + (* the chunk was refused: the engine stops *)
      run. exists [r], w1, b1, acc1. split_and!; try done.
      * intros [= ? _]. done.
      * intros Hplan. exfalso.
        destruct Hcase as [(Hfail & _)|(_ & -> & _)]; [|done].
        specialize (Hplan O). rewrite Nat.add_0_r in Hplan. done.
Qed.

(** ** C strings *)

Lemma strlen_nat_spec bs n :
  strlen_nat bs = Some n ->
  (n < length bs)%nat /\ bs !! n = Some x00 /\ Forall (fun b => b <> x00) (take n bs).
Proof.
  revert n. induction bs as [|b bs IH]; intros n; cbn [strlen_nat]; [done|].
  destruct (Byte.eqb b x00) eqn:Hb.
  - intros [= <-]. apply Byte.byte_dec_bl in Hb as ->. cbn. split_and!; [lia | done | constructor].
  - destruct (strlen_nat bs) as [m|]; [|done]. intros [= <-].
    destruct (IH m eq_refl) as (Hlt & Hz & Hall). cbn. split_and!; [lia | done |].
    constructor; [|done]. by apply Byte.eqb_false.
Qed.

(** A body followed by its terminator is a C string; its length is the
    body's length exactly when the body has no zero byte. *)
Lemma strlen_nat_terminated (body : list byte) :
  exists n, strlen_nat (body ++ [x00]) = Some n /\ (n <= length body)%nat.
Proof.
  induction body as [|b body (n & IH & Hn)]; cbn [strlen_nat app].
  - exists O. split; [done | cbn; lia].
  - destruct (Byte.eqb b x00).
    + exists O. split; [done | cbn; lia].
    + exists (S n). rewrite IH. split; [done | cbn; lia].
Qed.

Lemma strlen_nat_no_zero (body : list byte) :
  Forall (fun b => b <> x00) body ->
  strlen_nat (body ++ [x00]) = Some (length body).
Proof.
  induction 1 as [|b body Hb _ IH]; cbn [strlen_nat app length]; [done|].
  destruct (Byte.eqb b x00) eqn:E.
  - apply Byte.byte_dec_bl in E. done.
  - by rewrite IH.
Qed.

Lemma to_long_small z : 0 <= z < 2 ^ 63 -> to_long z = z.
Proof. intros Hz. unfold to_long. rewrite Z.mod_small; lia. Qed.

Lemma to_long_large z : 2 ^ 63 <= z < 2 ^ 64 -> to_long z < 0.
Proof.
  intros Hz. unfold to_long.
  replace (z + 2 ^ 63) with ((z - 2 ^ 63) + 1 * 2 ^ 64) by lia.
  rewrite Z.mod_add by lia. rewrite Z.mod_small; lia.
Qed.

(** With [CURLOPT_POSTFIELDSIZE] set from [strlen], the engine sends the
    bytes before the first zero byte of the payload. *)
Lemma wire_body_strlen e bs n w :
  o_postfields e = Some bs ->
  strlen_nat bs = Some n -> len bs <= SIZE_MAX ->
  o_postfieldsize e = to_long (size_t (Z.of_nat n)) ->
  wire_body e w = Some (Some (take n bs), w).
Proof.
  intros Hpf Hn Hmax Hsz.
  destruct (strlen_nat_spec _ _ Hn) as (Hlt & _).
  assert (Hst : size_t (Z.of_nat n) = Z.of_nat n)
    by (apply size_t_small; unfold len in *; lia).
  unfold wire_body, strlen. rewrite Hpf, Hsz, Hn, Hst.
  destruct (Z.ltb_spec (to_long (Z.of_nat n)) 0) as [Hneg|Hpos].
  - run. by rewrite Hst, Nat2Z.id.
  - assert (Hsmall : Z.of_nat n < 2 ^ 63).
    { destruct (Z.lt_ge_cases (Z.of_nat n) (2 ^ 63)) as [|Hge]; [done|].
      pose proof (to_long_large (Z.of_nat n)). unfold SIZE_MAX, len in *. lia. }
    rewrite to_long_small by lia.
    destruct (Z.leb_spec (Z.of_nat n) (len bs)) as [_|Hgt]; [|unfold len in Hgt; lia].
    run. by rewrite Nat2Z.id.
Qed.

(** ** The perform step *)

Lemma wf_frame w w' :
  wf w -> heap w' = heap w -> vars w' = vars w -> slists w' = slists w ->
  brk w' = brk w -> (forall a, handles w !! a = None -> handles w' !! a = None) ->
  wf w'.
Proof.
  intros (Hbrk & Hnull & Hfresh) Hh Hv Hs Hb Hhs. unfold wf.
  rewrite Hh, Hv, Hs, Hb. split_and!; try done.
  intros a Ha. destruct (Hfresh a Ha) as (? & ? & ? & ?). split_and!; auto.
Qed.

Lemma perform_spec w h e b hs body :
  wf w -> h <> NULL -> handles w !! h = Some e ->
  o_writefunction e = Some write_cb_fn ->
  accumulator w (o_writedata e) b [] ->
  header_lines (o_httpheader e) w = Some (hs, w) ->
  wire_body e w = Some (body, w) ->
  total (xfer_chunks (net (env w))) + 1 <= SIZE_MAX ->
  exists res w' b' acc' evs,
    curl_easy_perform h w = Some (res, w') /\
    wf w' /\ accumulator w' (o_writedata e) b' acc' /\
    vars w' = <[o_writedata e := OBuffer b']> (vars w) /\
    delete (data b') (heap w') = delete (data b) (heap w) /\
    handles w' = alter (set_response_code (xfer_status (net (env w)))) h (handles w) /\
    slists w' = slists w /\ env w' = env w /\
    log w' = EvPerform h (mkWire (o_url e) (o_customrequest e) hs body) res :: evs ++ log w /\
    Forall is_realloc evs /\
    (res = xfer_result (net (env w)) \/ res = CURLE_WRITE_ERROR) /\
    (res = CURLE_OK -> acc' = concat (xfer_chunks (net (env w)))) /\
    ((forall i, alloc_plan (env w) (ticks w + i) <> AllocFail) ->
       res = xfer_result (net (env w))) /\
    (xfer_chunks (net (env w)) = [] ->
       res = xfer_result (net (env w)) /\ b' = b /\ heap w' = heap w).
Proof.
  intros Hwf Hh He Hwr Hacc Hhs Hbody Hmax.
  destruct (deliver_spec (o_writedata e) (xfer_chunks (net (env w))) w b [] Hwf Hacc)
    as (rets & w1 & b1 & acc1 & Hrun & Hwf1 & Hacc1 & Hfr & Hall & Hok & Hnil).
  { change (len (@nil byte)) with 0. lia. }
  destruct Hfr as (Hv & Hd & Hhs1 & Hsl & Henv & evs & Hlog & Hevs).
  apply N.eqb_neq in Hh.
  unfold curl_easy_perform, live_handle. rewrite Hh. run. rewrite He. run.
  rewrite Hhs. rewrite Hbody. run.
  rewrite Hwr, Hrun. run.
  set (x := net (env w)) in *.
  set (res := if bool_decide (rets = map len (xfer_chunks x))
              then xfer_result x else CURLE_WRITE_ERROR).
  eexists res, _, b1, acc1, evs. split; [reflexivity|].
  destruct w1 as [hp1 vs1 hs1 sl1 bk1 tk1 lg1 en1]. cbn [heap vars handles slists env log] in *.
  subst hs1. run.
  split_and!; try done.
  - eapply wf_frame; [exact Hwf1|done..|].
    intros a Ha. run. cbn [handles] in Ha. rewrite lookup_alter. case_decide; [subst a|done].
    by rewrite Ha.
  - by rewrite Hlog.
  - unfold res. case_bool_decide; auto.
  - unfold res. case_bool_decide; [auto|done].
  - intros Hplan. unfold res. destruct (Hok Hplan) as [-> _]. by rewrite bool_decide_eq_true_2.
  - intros Hx. destruct (Hnil Hx) as (Hw & -> & Hr).
    split_and!; [|done|by rewrite <- Hw].
    unfold res. by rewrite Hr, Hx, bool_decide_eq_true_2.
Qed.

(** ** The request routine, phase by phase *)

Lemma simple_request_phases url method payload headers response response_len :
  curl_shim_simple_request url method payload headers response response_len =
  (let* curl := curl_easy_init in
   if N.eqb curl NULL then ret CURLE_FAILED_INIT else
   with_buffer (fun p buf =>
     configure_then curl url method payload headers buf
       (let* res := curl_easy_perform curl in
        finish curl buf response response_len res))).
Proof. reflexivity. Qed.

Lemma extends_nil (P : event -> Prop) (lg : list event) :
  exists evs, lg = evs ++ lg /\ Forall P evs.
Proof. by exists []. Qed.

Lemma extends_cons (P : event -> Prop) e (l lg : list event) :
  P e -> (exists evs, l = evs ++ lg /\ Forall P evs) ->
  exists evs, e :: l = evs ++ lg /\ Forall P evs.
Proof. intros He (evs & -> & Hevs). exists (e :: evs). split; [done|]. by constructor. Qed.

Lemma configure_run w curl url method payload headers buf k :
  curl <> NULL -> handles w !! curl = Some easy_default ->
  payload_ok payload ->
  exists W,
    configure_then curl url method payload headers buf k w = k W /\
    heap W = heap w /\ vars W = vars w /\
    handles W = <[curl := configured url method payload headers buf]> (handles w) /\
    slists W = slists w /\ brk W = brk w /\ ticks W = ticks w /\ env W = env w /\
    exists evs, log W = evs ++ log w /\ Forall is_setopt evs.
Proof.
  intros Hcurl He Hpay. apply N.eqb_neq in Hcurl.
  destruct w as [hp vs hs sl bk tk lg en]. cbn [handles] in He.
  unfold configure_then, curl_easy_setopt, live_handle, configured.
  rewrite Hcurl.
  destruct payload as [bs|]; [destruct Hpay as [[n Hn] _]; unfold strlen; rewrite Hn|];
    destruct (N.eqb_spec headers NULL) as [->|Hne];
    repeat (run; first [rewrite He | rewrite lookup_insert_eq]; cbn [set_option easy_default
              o_url o_customrequest o_httpheader o_postfields o_postfieldsize o_writefunction
              o_writedata o_nosignal o_http_version o_ssl_verifypeer o_ssl_verifyhost
              i_response_code default]);
    (eexists; split; [reflexivity|]); run; rewrite ?insert_insert_eq;
    (split_and!; try done);
    repeat (apply extends_cons; [exact I|]); apply extends_nil.
Qed.

Lemma init_run w :
  wf w -> acquire_ok (env w) = true ->
  let W := set_log (cons (EvEasyInit (brk w)))
             (set_handles (insert (brk w) easy_default) (set_brk N.succ w)) in
  curl_easy_init w = Some (brk w, W) /\ wf W /\ brk w <> NULL.
Proof.
  intros (Hbrk & Hnull & Hfresh) Hacq W. subst W.
  destruct w as [hp vs hs sl bk tk lg en]. cbn [env brk heap vars handles slists] in *.
  unfold curl_easy_init. run. rewrite Hacq. run.
  split_and!; [done| |unfold NULL; lia].
  unfold wf. run. split_and!; [lia|done|].
  intros a Ha. destruct (Hfresh a ltac:(lia)) as (? & ? & ? & ?).
  split_and!; try done. rewrite lookup_insert_ne by lia. done.
Qed.

Lemma with_buffer_run w k :
  wf w ->
  exists p buf W,
    with_buffer k w = k p buf W /\
    wf W /\ accumulator W buf (mkBuffer p 0) [] /\
    (p = NULL /\ alloc_plan (env w) (ticks w) = AllocFail /\ heap W = heap w
     \/ p <> NULL /\ alloc_plan (env w) (ticks w) <> AllocFail /\
        heap w !! p = None /\ heap W = <[p := [None]]> (heap w)) /\
    vars w !! buf = None /\ vars W = <[buf := OBuffer (mkBuffer p 0)]> (vars w) /\
    handles W = handles w /\ slists W = slists w /\ env W = env w /\
    ticks W = S (ticks w) /\ log W = EvMalloc 1 p :: log w.
Proof.
  intros (Hbrk & Hnull & Hfresh).
  destruct w as [hp vs hs sl bk tk lg en]. cbn [env brk heap vars handles slists ticks] in *.
  unfold with_buffer, malloc, alloca. run.
  destruct (alloc_plan en tk) eqn:Hplan; run.
  - (* no memory: the null pointer goes into the buffer *)
    exists NULL, bk. eexists. split; [reflexivity|].
    destruct (Hfresh bk ltac:(lia)) as (? & ? & ? & ?).
    unfold wf, accumulator, old_block. run.
    split_and!; try done.
    + lia.
    + intros a Ha. destruct (Hfresh a ltac:(lia)) as (? & ? & ? & ?).
      split_and!; try done. rewrite lookup_insert_ne by lia. done.
    + apply lookup_insert_eq.
    + by exists [].
    + by left.
  - exists bk, (N.succ bk). eexists. split; [reflexivity|].
    destruct (Hfresh bk ltac:(lia)) as (? & ? & ? & ?).
    destruct (Hfresh (N.succ bk) ltac:(lia)) as (? & ? & ? & ?).
    assert (Hbk : N.eqb bk NULL = false) by (apply N.eqb_neq; unfold NULL; lia).
    unfold wf, accumulator, old_block. run. rewrite Hbk.
    split_and!; try done.
    + lia.
    + rewrite lookup_insert_ne by (unfold NULL; lia). done.
    + intros a Ha. destruct (Hfresh a ltac:(lia)) as (? & ? & ? & ?).
      split_and!; try done; rewrite lookup_insert_ne by lia; done.
    + apply lookup_insert_eq.
    + rewrite lookup_insert_eq. by eexists.
    + right. split_and!; try done. unfold NULL; lia.
  - exists bk, (N.succ bk). eexists. split; [reflexivity|].
    destruct (Hfresh bk ltac:(lia)) as (? & ? & ? & ?).
    destruct (Hfresh (N.succ bk) ltac:(lia)) as (? & ? & ? & ?).
    assert (Hbk : N.eqb bk NULL = false) by (apply N.eqb_neq; unfold NULL; lia).
    unfold wf, accumulator, old_block. run. rewrite Hbk.
    split_and!; try done.
    + lia.
    + rewrite lookup_insert_ne by (unfold NULL; lia). done.
    + intros a Ha. destruct (Hfresh a ltac:(lia)) as (? & ? & ? & ?).
      split_and!; try done; rewrite lookup_insert_ne by lia; done.
    + apply lookup_insert_eq.
    + rewrite lookup_insert_eq. by eexists.
    + right. split_and!; try done. unfold NULL; lia.
Qed.

Lemma finish_ok w curl buf response response_len b e o1 o2 :
  vars w !! buf = Some (OBuffer b) ->
  vars w !! response = Some (OPtr o1) ->
  vars w !! response_len = Some (OSize o2) ->
  curl <> NULL -> handles w !! curl = Some e ->
  exists W,
    finish curl buf response response_len CURLE_OK w = Some (CURLE_OK, W) /\
    heap W = heap w /\
    vars W = delete buf (<[response_len := OSize (size b)]>
                         (<[response := OPtr (data b)]> (vars w))) /\
    handles W = delete curl (handles w) /\ slists W = slists w /\ env W = env w /\
    brk W = brk w /\ log W = EvEasyCleanup curl :: log w.
Proof.
  intros Hb Hr Hl Hcurl He. apply N.eqb_neq in Hcurl.
  assert (Hne : response <> response_len) by congruence.
  destruct w as [hp vs hs sl bk tk lg en]. cbn [vars handles] in *.
  unfold finish, load_Buffer, store_ptr, store_size, curl_easy_cleanup, live_handle, dealloca.
  run. rewrite Hb. run. rewrite Z.eqb_refl. run. rewrite Hr. run.
  rewrite lookup_insert_ne, Hl by done. run.
  rewrite Hcurl. run. rewrite He. run.
  eexists. split; [reflexivity|]. run. done.
Qed.

Lemma finish_fail w curl buf response response_len res b blk e :
  res <> CURLE_OK ->
  vars w !! buf = Some (OBuffer b) ->
  old_block w (data b) = Some blk ->
  curl <> NULL -> handles w !! curl = Some e ->
  exists W,
    finish curl buf response response_len res w = Some (res, W) /\
    heap W = (if N.eqb (data b) NULL then heap w else delete (data b) (heap w)) /\
    vars W = delete buf (vars w) /\
    handles W = delete curl (handles w) /\ slists W = slists w /\ env W = env w /\
    brk W = brk w /\ log W = EvEasyCleanup curl :: EvFree (data b) :: log w.
Proof.
  intros Hres Hb Hold Hcurl He. apply N.eqb_neq in Hcurl. apply Z.eqb_neq in Hres.
  destruct w as [hp vs hs sl bk tk lg en]. unfold old_block in Hold. cbn [heap vars handles] in *.
  unfold finish, load_Buffer, free, curl_easy_cleanup, live_handle, dealloca.
  run. rewrite Hb. run. rewrite Hres.
  destruct (N.eqb (data b) NULL); run; rewrite ?Hold; run;
    rewrite Hcurl; run; rewrite He; run;
    (eexists; split; [reflexivity|]); run; done.
Qed.

(** ** Projections of the log *)

Lemma collect_app {A} (f : event -> option A) l1 l2 :
  collect f (l1 ++ l2) = collect f l1 ++ collect f l2.
Proof.
  induction l1 as [|e l1 IH]; cbn [collect app]; [done|].
  destruct (f e); by rewrite IH.
Qed.

Lemma collect_none {A} (f : event -> option A) (P : event -> Prop) l :
  (forall e, P e -> f e = None) -> Forall P l -> collect f l = [].
Proof.
  intros HP. induction 1 as [|e l He _ IH]; cbn [collect]; [done|].
  by rewrite (HP e He).
Qed.

(** ** The request routine as a whole *)

Lemma accumulator_frame w w' ud b acc :
  accumulator w ud b acc -> heap w' = heap w -> vars w' = vars w ->
  accumulator w' ud b acc.
Proof. unfold accumulator, old_block. by intros H -> ->. Qed.

Lemma simple_request_spec w url method payload headers response response_len :
  request_ok w payload headers response response_len ->
  acquire_ok (env w) = true ->
  exists res w' p b acc evs,
    curl_shim_simple_request url method payload headers response response_len w
      = Some (res, w') /\
    (res = xfer_result (net (env w)) \/ res = CURLE_WRITE_ERROR) /\
    ((forall i, alloc_plan (env w) (S (ticks w) + i) <> AllocFail) ->
       res = xfer_result (net (env w))) /\
    (p = NULL /\ alloc_plan (env w) (ticks w) = AllocFail \/
     p <> NULL /\ alloc_plan (env w) (ticks w) <> AllocFail /\ heap w !! p = None) /\
    handles w' = handles w /\ slists w' = slists w /\ env w' = env w /\
    log w' = EvEasyCleanup (brk w)
               :: (if res =? CURLE_OK then [] else [EvFree (data b)])
               ++ EvPerform (brk w)
                    (mkWire url method (lines_of w headers) (body_of payload)) res
               :: evs ++ EvMalloc 1 p :: EvEasyInit (brk w) :: log w /\
    Forall is_internal evs /\
    size b = len acc /\
    (res <> CURLE_OK -> heap w' = heap w /\ vars w' = vars w) /\
    (res = CURLE_OK ->
       acc = concat (xfer_chunks (net (env w))) /\
       vars w' = <[response_len := OSize (size b)]>
                   (<[response := OPtr (data b)]> (vars w)) /\
       delete (data b) (heap w') = heap w /\
       exists blk, old_block w' (data b) = Some blk /\
                   take (length acc) blk = map Some acc) /\
    (xfer_chunks (net (env w)) = [] ->
       res = xfer_result (net (env w)) /\ b = mkBuffer p 0 /\
       (res = CURLE_OK -> p <> NULL -> heap w' = <[p := [None]]> (heap w))).
Proof.
  intros (Hwf & Hpay & Hhdr & [o1 Hr] & [o2 Hl] & Hmax) Hacq.
  rewrite simple_request_phases.
  destruct (init_run w Hwf Hacq) as (Hinit & Hwf1 & Hh).
  set (h := brk w) in *.
  set (W1 := set_log _ _) in Hinit, Hwf1.
  unfold bind at 1. rewrite Hinit.
  rewrite (proj2 (N.eqb_neq h NULL) Hh).
  set (K := fun p buf => configure_then _ _ _ _ _ _ _).
  destruct (with_buffer_run W1 K Hwf1)
    as (p & buf & W3 & Hbuf & Hwf3 & Hacc3 & Hp & Hfresh & Hv3 & Hhs3 & Hsl3 & Henv3 & Htk3 & Hlog3).
  rewrite Hbuf. subst K. cbn beta.
  destruct (configure_run W3 h url method payload headers buf
              (let* res := curl_easy_perform h in finish h buf response response_len res)
              Hh) as (W4 & Hconf & Hh4 & Hv4 & Hhs4 & Hsl4 & Hbrk4 & Htk4 & Henv4 & evs_s & Hlog4 & Hevs_s).
  { rewrite Hhs3. subst W1. destruct w. run. apply lookup_insert_eq. }
  { done. }
  rewrite Hconf. clear Hconf Hbuf Hinit.
  assert (Hwf4 : wf W4).
  { eapply wf_frame; [exact Hwf3|done..|].
    intros a Ha. rewrite Hhs4.
    destruct (decide (a = h)) as [->|Hne].
    - exfalso. rewrite Hhs3 in Ha. unfold W1 in Ha. cbn [handles set_log set_handles] in Ha.
      by rewrite lookup_insert_eq in Ha.
    - by rewrite lookup_insert_ne. }
  assert (Hacc4 : accumulator W4 buf (mkBuffer p 0) [])
    by (eapply accumulator_frame; eauto).
  subst W1.
  cbn [set_heap set_vars set_handles set_slists set_brk set_ticks set_log
       heap vars handles slists brk ticks log env]
    in Hp, Hfresh, Hv3, Hhs3, Hsl3, Henv3, Htk3, Hlog3.
  rewrite Hv3 in Hv4. rewrite Hhs3, insert_insert_eq in Hhs4. rewrite Hsl3 in Hsl4.
  rewrite Htk3 in Htk4. rewrite Henv3 in Henv4. rewrite Hlog3 in Hlog4.
  set (e := configured url method payload headers buf) in *.
  assert (Hlines : header_lines (o_httpheader e) W4 = Some (lines_of w headers, W4)).
  { unfold header_lines, lines_of. cbn [e configured o_httpheader].
    destruct (N.eqb_spec headers NULL) as [|Hne]; [done|].
    destruct Hhdr as [|[hs Hhs]]; [done|]. run. rewrite Hsl4, Hhs. done. }
  assert (Hbody : wire_body e W4 = Some (body_of payload, W4)).
  { unfold body_of. destruct payload as [bs|]; [|done].
    destruct Hpay as [[n Hn] Hlen]. rewrite Hn. cbn [default].
    apply wire_body_strlen; try done. unfold e, configured. cbn [o_postfieldsize].
    by rewrite Hn. }
  destruct (perform_spec W4 h e (mkBuffer p 0) (lines_of w headers) (body_of payload) Hwf4 Hh) as
    (res & W5 & b & acc & evs_r & Hperf & Hwf5 & Hacc5 & Hv5 & Hd5 & Hhs5 & Hsl5 & Henv5
       & Hlog5 & Hevs_r & Hres & Hok & Hplan & Hnil); try done.
  { rewrite Hhs4. apply lookup_insert_eq. }
  { by rewrite Henv4. }
  unfold bind at 1. rewrite Hperf.
  rewrite Henv4 in *. clear Hperf.
  change (o_writedata e) with buf in *. change (o_url e) with url in *.
  change (o_customrequest e) with method in *. cbn [data] in Hd5.
  pose proof Hwf as (Hbrk & Hnull & Hfr).
  destruct (Hfr h ltac:(unfold h; lia)) as (_ & _ & Hhnone & _).
  assert (Hrest : delete (data b) (heap W5) = heap w).
  { rewrite Hd5, Hh4.
    destruct Hp as [(-> & _ & ->)|(_ & _ & Hpn & ->)].
    - by apply delete_id.
    - rewrite delete_insert_eq. by apply delete_id. }
  rewrite Hv4, insert_insert_eq in Hv5.
  rewrite Hhs4 in Hhs5. rewrite Hsl4 in Hsl5. rewrite Hlog4 in Hlog5.
  assert (Hb5 : vars W5 !! buf = Some (OBuffer b)) by (rewrite Hv5; apply lookup_insert_eq).
  assert (Hne1 : buf <> response) by congruence.
  assert (Hne2 : buf <> response_len) by congruence.
  assert (Hh5 : handles W5 !! h = Some (set_response_code (xfer_status (net (env w))) e))
    by (rewrite Hhs5, lookup_alter_eq, lookup_insert_eq; done).
  assert (Hhandles : delete h (handles W5) = handles w).
  { rewrite Hhs5, delete_alter_eq, delete_insert_eq. by apply delete_id. }
  assert (Hsz : size b = len acc) by (destruct Hacc5 as (_ & ? & _); done).
  assert (Hp' : p = NULL /\ alloc_plan (env w) (ticks w) = AllocFail \/
                p <> NULL /\ alloc_plan (env w) (ticks w) <> AllocFail /\ heap w !! p = None).
  { destruct Hp as [(? & ? & _)|(? & ? & ? & _)]; [left|right]; done. }
  assert (Hplan' : (forall i, alloc_plan (env w) (S (ticks w) + i) <> AllocFail) ->
                   res = xfer_result (net (env w))).
  { intros Hi. apply Hplan. by rewrite Htk4. }
  assert (Hevs : Forall is_internal (evs_r ++ evs_s)).
  { apply Forall_app. split; eapply Forall_impl; eauto; unfold is_internal; auto. }
  destruct (Z.eqb_spec res CURLE_OK) as [->|Hfail].
  - (* the transfer succeeded: hand the buffer over *)
    assert (Hr5 : vars W5 !! response = Some (OPtr o1))
      by (rewrite Hv5, lookup_insert_ne; done).
    assert (Hl5 : vars W5 !! response_len = Some (OSize o2))
      by (rewrite Hv5, lookup_insert_ne; done).
    destruct (finish_ok W5 h buf response response_len b _ o1 o2 Hb5 Hr5 Hl5 Hh Hh5) as
      (W6 & Hfin & Hh6 & Hv6 & Hhs6 & Hsl6 & Henv6 & Hbrk6 & Hlog6).
    exists CURLE_OK, W6, p, b, acc, (evs_r ++ evs_s).
    split_and!; try done; try congruence.
    + rewrite Hlog6, Hlog5. cbn [app]. by rewrite <- app_assoc.
    + intros _. split_and!; try done.
      * by apply Hok.
      * rewrite Hv6, Hv5.
        rewrite delete_insert_ne, delete_insert_ne, delete_insert_eq by done.
        by rewrite delete_id.
      * by rewrite Hh6.
      * destruct Hacc5 as (_ & _ & blk & Hold & Htake).
        exists blk. unfold old_block in *. by rewrite Hh6.
    + intros Hx. destruct (Hnil Hx) as (? & -> & Hh5'). split_and!; try done.
      intros _ Hpn. rewrite Hh6, Hh5', Hh4.
      destruct Hp as [(? & _)|(_ & _ & _ & ->)]; done.
  - (* the transfer failed: drop the buffer *)
    destruct Hacc5 as (_ & _ & blk & Hold & Htake).
    destruct (finish_fail W5 h buf response response_len res b blk _ Hfail Hb5 Hold Hh Hh5) as
      (W6 & Hfin & Hh6 & Hv6 & Hhs6 & Hsl6 & Henv6 & Hbrk6 & Hlog6).
    rewrite delete_or_not in Hh6 by (destruct Hwf5 as (_ & ? & _); done).
    exists res, W6, p, b, acc, (evs_r ++ evs_s).
    rewrite (proj2 (Z.eqb_neq res CURLE_OK) Hfail).
    split_and!; try done; try congruence.
    + rewrite Hlog6, Hlog5. cbn [app]. by rewrite <- app_assoc.
    + intros _. split; [congruence|].
      rewrite Hv6, Hv5, delete_insert_eq. by apply delete_id.
    + intros Hx. destruct (Hnil Hx) as (? & -> & _). done.
Qed.

Lemma internal_not_collected {A} (f : event -> option A) evs :
  (forall p n q, f (EvRealloc p n q) = None) ->
  (forall h o v r, f (EvSetopt h o v r) = None) ->
  Forall is_internal evs -> collect f evs = [].
Proof.
  intros Hr Hs. apply collect_none.
  intros [] [Hi|Hi]; cbn in Hi; try done; auto.
Qed.

(** What the log of a completed request says about releases, requests,
    allocations and frees. *)
Lemma request_log (h p : N) res (b : Buffer) rq evs lg :
  Forall is_internal evs ->
  let L := EvEasyCleanup h
             :: (if res =? CURLE_OK then [] else [EvFree (data b)])
             ++ EvPerform h rq res :: evs ++ EvMalloc 1 p :: EvEasyInit h :: lg in
  released L = released lg /\
  performed L = (rq, res) :: performed lg /\
  malloced L = (1, p) :: malloced lg /\
  freed L = (if res =? CURLE_OK then [] else [data b]) ++ freed lg.
Proof.
  intros Hevs L. subst L. unfold released, performed, malloced, freed.
  cbn [collect]. rewrite !collect_app. cbn [collect]. rewrite !collect_app. cbn [collect].
  rewrite !(internal_not_collected _ evs) by done.
  destruct (res =? CURLE_OK); done.
Qed.

(** The handle acquisition fails: nothing else happens. *)
Lemma init_failed_run w url method payload headers response response_len :
  acquire_ok (env w) = false ->
  curl_shim_simple_request url method payload headers response response_len w
    = Some (CURLE_FAILED_INIT, set_log (cons (EvEasyInit NULL)) w).
Proof.
  intros Hacq. destruct w as [hp vs hs sl bk tk lg en]. cbn [env] in Hacq.
  unfold curl_shim_simple_request, curl_easy_init. run. rewrite Hacq. run.
  reflexivity.
Qed.

(** ** The concrete worlds are well-formed *)

Lemma wf_world0 e : wf (world0 e).
Proof.
  unfold wf, world0. cbn [heap vars handles slists brk].
  split_and!; [lia|done|].
  intros a Ha. split_and!; [done| |done|done].
  rewrite lookup_insert_ne by lia. by rewrite lookup_singleton_ne by lia.
Qed.

Lemma request_ok_world0 e payload :
  payload_ok payload -> total (xfer_chunks (net e)) + 1 <= SIZE_MAX ->
  request_ok (world0 e) payload NULL 1 2.
Proof.
  intros Hpay Hmax. unfold request_ok. split_and!; try done.
  - apply wf_world0.
  - by left.
  - by exists NULL.
  - by exists (-1).
Qed.

Lemma request_ok_world1 e payload :
  payload_ok payload -> total (xfer_chunks (net e)) + 1 <= SIZE_MAX ->
  request_ok (world1 e) payload 3 1 2.
Proof.
  intros Hpay Hmax. unfold request_ok. split_and!; try done.
  - unfold wf, world1. cbn [heap vars handles slists brk].
    split_and!; [lia|done|].
    intros a Ha. split_and!; [done| |done|].
    + rewrite lookup_insert_ne by lia. by rewrite lookup_singleton_ne by lia.
    + by rewrite lookup_singleton_ne by lia.
  - right. by eexists.
  - by exists NULL.
  - by exists (-1).
Qed.

Lemma wf_buffer_world e : wf (buffer_world e).
Proof.
  unfold wf, buffer_world. cbn [heap vars handles slists brk].
  split_and!; [lia|done|].
  intros a Ha. split_and!; [|  |done|done]; by rewrite lookup_singleton_ne by lia.
Qed.

Lemma accumulator_buffer_world e :
  accumulator (buffer_world e) 2 (mkBuffer 1 0) [].
Proof. unfold accumulator, old_block. split_and!; try done. by exists [None]. Qed.

Lemma total_take k chunks : total (take k chunks) <= total chunks.
Proof.
  revert k. induction chunks as [|c cs IH]; intros [|k]; cbn [take]; try done.
  - apply (total_nonneg (c :: cs)).
  - change (len c + total (take k cs) <= len c + total cs). specialize (IH k). lia.
Qed.

(** * The claims *)

(** C9: when acquiring the transport handle fails, the request routine
    returns [CURLE_FAILED_INIT] at once: the only library call made is the
    failed [curl_easy_init], so no buffer has been allocated (the
    allocator has not even been asked), nothing has been configured or
    performed, and the heap, the caller's variables, the handles and the
    header lists are as before. *)
Theorem init_failure_is_immediate w url method payload headers response response_len :
  acquire_ok (env w) = false ->
  exists w',
    curl_shim_simple_request url method payload headers response response_len w
      = Some (CURLE_FAILED_INIT, w') /\
    log w' = EvEasyInit NULL :: log w /\
    ticks w' = ticks w /\ brk w' = brk w /\
    heap w' = heap w /\ vars w' = vars w /\
    handles w' = handles w /\ slists w' = slists w.
Proof.
  intros Hacq. eexists. split; [by apply init_failed_run|]. done.
Qed.

Lemma init_failure_is_immediate_witness :
  let w := world0 (mkEnv all_ok false quiet) in
  acquire_ok (env w) = false /\
  exists w',
    curl_shim_simple_request None None None NULL 1 2 w = Some (CURLE_FAILED_INIT, w') /\
    log w' = EvEasyInit NULL :: log w /\
    ticks w' = ticks w /\ brk w' = brk w /\
    heap w' = heap w /\ vars w' = vars w /\
    handles w' = handles w /\ slists w' = slists w.
Proof.
  split; [reflexivity|].
  apply (init_failure_is_immediate (world0 (mkEnv all_ok false quiet))). reflexivity.
Defined.

(** C6: when the reallocation fails, the sink returns 0 without any
    error or undefined behaviour; the [Buffer] (pointer and length) and
    the heap are untouched, so the previous allocation is still valid.
    The engine sees the failure only as a short count: handed a non-empty
    chunk, its delivery loop stops with the single answer 0. *)
Theorem write_cb_realloc_failure w ud b blk ptr s n :
  vars w !! ud = Some (OBuffer b) ->
  old_block w (data b) = Some blk ->
  0 <= size b -> size b + size_t (s * n) + 1 <= SIZE_MAX ->
  alloc_plan (env w) (ticks w) = AllocFail ->
  exists w',
    write_cb ptr s n ud w = Some (0, w') /\
    vars w' = vars w /\ heap w' = heap w /\
    vars w' !! ud = Some (OBuffer b) /\ old_block w' (data b) = Some blk /\
    (forall cs, s = 1 -> n = len ptr -> ptr <> [] ->
       deliver write_cb_fn ud (ptr :: cs) w = Some ([0], w')).
Proof.
  intros Hb Hold H0 Hmax Hplan.
  pose proof (size_t_range (s * n)) as Hrs.
  assert (Hn : size_t (size b + size_t (s * n) + 1) <> 0) by (rewrite size_t_small; lia).
  eexists. split; [by apply (write_cb_fail w ud b blk)|].
  destruct w as [hp vs hs sl bk tk lg en]. unfold old_block in *. run.
  split_and!; try done.
  intros cs -> -> Hne. cbn [deliver call bind].
  rewrite (write_cb_fail _ ud b blk ptr 1 (len ptr) Hb Hold Hn Hplan).
  destruct (Z.eqb_spec 0 (len ptr)) as [Hz|_]; [|done].
  destruct ptr; [done|]. unfold len in Hz. cbn [length] in Hz. lia.
Qed.

Lemma write_cb_realloc_failure_witness :
  let w := buffer_world (mkEnv (fun _ => AllocFail) true quiet) in
  (vars w !! 2%N = Some (OBuffer (mkBuffer 1 0)) /\
   old_block w 1 = Some [None] /\
   0 <= 0 /\ 0 + size_t (1 * 5) + 1 <= SIZE_MAX /\
   alloc_plan (env w) (ticks w) = AllocFail) /\
  exists w',
    write_cb hello 1 5 2 w = Some (0, w') /\
    vars w' = vars w /\ heap w' = heap w /\
    vars w' !! 2%N = Some (OBuffer (mkBuffer 1 0)) /\ old_block w' 1 = Some [None] /\
    (forall cs, 1 = 1 -> 5 = len hello -> hello <> [] ->
       deliver write_cb_fn 2 (hello :: cs) w = Some ([0], w')).
Proof.
  split; [split_and!; vm_compute; congruence|].
  apply (write_cb_realloc_failure
           (buffer_world (mkEnv (fun _ => AllocFail) true quiet)) 2 (mkBuffer 1 0) [None] hello 1 5);
    vm_compute; congruence.
Defined.

(** C7: in every accumulator state, a zero-length chunk is accepted: the
    sink returns 0, which is the chunk's length, whatever the allocator
    does; the recorded length does not change and the accumulated bytes
    are the same. *)
Theorem write_cb_empty_chunk w ud b acc ptr s n :
  wf w -> accumulator w ud b acc ->
  size_t (s * n) = 0 -> len acc + 1 <= SIZE_MAX ->
  exists w' b',
    write_cb ptr s n ud w = Some (0, w') /\
    accumulator w' ud b' acc /\ size b' = size b.
Proof.
  intros Hwf Hacc Hz Hmax.
  destruct (accumulator_bounds _ _ _ _ Hwf Hacc) as (Hud & Hp & H0 & blk & Hold & Hle & Htake).
  pose proof Hacc as (Hb & Hsz & Hblk).
  pose proof Hwf as (Hbrk & Hnull & Hfresh).
  assert (Hcases : alloc_plan (env w) (ticks w) = AllocFail \/
                   alloc_plan (env w) (ticks w) <> AllocFail)
    by (destruct (alloc_plan (env w) (ticks w)); [by left | by right | by right]).
  destruct Hcases as [Hplan|Hplan].
  - assert (Hn : size_t (size b + size_t (s * n) + 1) <> 0)
      by (rewrite Hz, size_t_small; lia).
    eexists _, b. split; [by apply (write_cb_fail w ud b blk)|].
    split; [|done]. eapply accumulator_frame; [exact Hacc|..]; by destruct w.
  - destruct (write_cb_ok w ud b blk ptr s n Hb Hold H0 Hle
                ltac:(rewrite Hz; apply len_nonneg) ltac:(rewrite Hz; lia) Hbrk Hplan)
      as (q & w' & Hrun & Hq & Hheap & Hvars & Hhs & Hsl & Henv & Htk & Hlog).
    rewrite Hz in *. change (take (Z.to_nat 0) ptr) with (@nil byte) in Hheap.
    rewrite delete_or_not in Hheap by done.
    assert (Hgrown : grown blk (size b) [] = map Some (acc ++ []) ++ [Some x00])
      by (unfold grown; rewrite Htake, app_nil_r; done).
    rewrite Hgrown in Hheap.
    change 0 with (len (@nil byte)) in Hvars.
    destruct (grown_invariants w w' ud b acc [] q _ Hwf Hacc Hq Hheap Hvars Hhs Hsl Henv Hlog I)
      as (_ & Hacc' & _).
    rewrite app_nil_r in Hacc'.
    eexists w', _. split; [exact Hrun|]. split; [exact Hacc'|].
    cbn [size]. change (len (@nil byte)) with 0. lia.
Qed.

Lemma write_cb_empty_chunk_witness :
  let w := buffer_world (mkEnv all_ok true quiet) in
  (wf w /\ accumulator w 2 (mkBuffer 1 0) [] /\
   size_t (1 * 0) = 0 /\ len (@nil byte) + 1 <= SIZE_MAX) /\
  exists w' b',
    write_cb [] 1 0 2 w = Some (0, w') /\
    accumulator w' 2 b' [] /\ size b' = size (mkBuffer 1 0).
Proof.
  split.
  - split_and!; [apply wf_buffer_world | apply accumulator_buffer_world
                 | reflexivity | vm_compute; congruence].
  - apply (write_cb_empty_chunk (buffer_world (mkEnv all_ok true quiet)) 2 (mkBuffer 1 0) [] [] 1 0);
      [apply wf_buffer_world | apply accumulator_buffer_world
       | reflexivity | vm_compute; congruence].
Defined.

(** C3: feed any finite sequence of chunks to the sink of an empty
    accumulator, all reallocations succeeding.  After every call (every
    prefix [fed] of the sequence) each call so far has returned its
    chunk's length, the recorded length is the sum of the chunk lengths,
    the first [size] bytes of the buffer are the chunks concatenated in
    call order, and from the first call on the block is exactly that
    content followed by one zero byte, which [size] does not count. *)
Theorem write_cb_accumulates w ud b chunks :
  wf w -> accumulator w ud b [] ->
  total chunks + 1 <= SIZE_MAX ->
  (forall i, alloc_plan (env w) (ticks w + i) <> AllocFail) ->
  forall k, (k <= length chunks)%nat ->
    let fed := take k chunks in
    exists w' b' blk,
      deliver write_cb_fn ud fed w = Some (map len fed, w') /\
      vars w' !! ud = Some (OBuffer b') /\
      size b' = total fed /\
      old_block w' (data b') = Some blk /\
      take (Z.to_nat (size b')) blk = map Some (concat fed) /\
      (fed <> [] -> blk = map Some (concat fed) ++ [Some x00]).
Proof.
  intros Hwf Hacc Hmax Hplan k Hk fed.
  pose proof (total_take k chunks) as Hle. fold fed in Hle.
  destruct (deliver_spec ud fed w b [] Hwf Hacc)
    as (rets & w' & b' & acc' & Hrun & Hwf' & Hacc' & _ & Hall & Hok & _).
  { change (len (@nil byte)) with 0. lia. }
  destruct (Hok Hplan) as [-> Hterm].
  rewrite (Hall eq_refl) in *. cbn [app] in *.
  destruct (accumulator_bounds _ _ _ _ Hwf' Hacc') as (_ & _ & _ & blk & Hold & _ & Htake).
  destruct Hacc' as (Hb' & Hsz & _).
  exists w', b', blk. split_and!; try done.
  - by rewrite Hsz, len_concat.
  - intros Hne. specialize (Hterm (or_introl Hne)). unfold terminated in Hterm.
    unfold old_block in Hold. destruct (N.eqb_spec (data b') NULL) as [Hnull|_].
    + destruct Hwf' as (_ & Hn & _). rewrite Hnull in Hterm. congruence.
    + congruence.
Qed.

Lemma write_cb_accumulates_witness :
  let w := buffer_world (mkEnv all_ok true quiet) in
  let chunks := [hello; []; hello] in
  (wf w /\ accumulator w 2 (mkBuffer 1 0) [] /\
   total chunks + 1 <= SIZE_MAX /\
   (forall i, alloc_plan (env w) (ticks w + i) <> AllocFail) /\ (3 <= length chunks)%nat) /\
  exists w' b' blk,
    deliver write_cb_fn 2 (take 3 chunks) w = Some (map len (take 3 chunks), w') /\
    vars w' !! 2%N = Some (OBuffer b') /\
    size b' = total (take 3 chunks) /\
    old_block w' (data b') = Some blk /\
    take (Z.to_nat (size b')) blk = map Some (concat (take 3 chunks)) /\
    (take 3 chunks <> [] -> blk = map Some (concat (take 3 chunks)) ++ [Some x00]).
Proof.
  split.
  - split_and!; [apply wf_buffer_world | apply accumulator_buffer_world
                 | vm_compute; congruence | done | cbn; lia].
  - apply (write_cb_accumulates (buffer_world (mkEnv all_ok true quiet)) 2 (mkBuffer 1 0)
             [hello; []; hello]);
      [apply wf_buffer_world | apply accumulator_buffer_world
       | vm_compute; congruence | done | cbn; lia].
Defined.

(** C4: when the perform step fails, the routine returns the code the
    engine's perform produced (the network's outcome, or the write error
    the engine raises when the sink refuses a chunk), frees the response
    buffer, and leaves the heap exactly as it was before the call: no
    block of the buffer survives.  The caller's variables, among them the
    response pointer and the response length, are unchanged.  A failing
    network outcome always makes the call fail. *)
Theorem transport_failure_discards_buffer w url method payload headers response response_len :
  request_ok w payload headers response response_len ->
  acquire_ok (env w) = true ->
  exists res w',
    curl_shim_simple_request url method payload headers response response_len w
      = Some (res, w') /\
    (xfer_result (net (env w)) <> CURLE_OK -> res <> CURLE_OK) /\
    (res <> CURLE_OK ->
       (res = xfer_result (net (env w)) \/ res = CURLE_WRITE_ERROR) /\
       (exists rq, performed (log w') = (rq, res) :: performed (log w)) /\
       (exists p, freed (log w') = p :: freed (log w)) /\
       heap w' = heap w /\ vars w' = vars w /\
       vars w' !! response = vars w !! response /\
       vars w' !! response_len = vars w !! response_len /\
       handles w' = handles w).
Proof.
  intros Hok Hacq.
  destruct (simple_request_spec w url method payload headers response response_len Hok Hacq)
    as (res & w' & p & b & acc & evs & Hrun & Hres & _ & _ & Hhs & _ & _ & Hlog & Hevs & _
          & Hfail & _).
  exists res, w'. split; [exact Hrun|]. split.
  - intros Hx ->. destruct Hres as [Hres|Hres]; [congruence | discriminate Hres].
  - intros Hne. destruct (Hfail Hne) as [Hh Hv].
    destruct (request_log (brk w) p res b
                (mkWire url method (lines_of w headers) (body_of payload)) evs (log w) Hevs)
      as (_ & Hperf & _ & Hfreed).
    rewrite <- Hlog in Hperf, Hfreed.
    rewrite (proj2 (Z.eqb_neq res CURLE_OK) Hne) in Hfreed.
    split_and!; try done; try (by rewrite Hv); eauto.
Qed.

Lemma transport_failure_discards_buffer_witness :
  let w := world0 (mkEnv all_ok true unresolved) in
  (request_ok w None NULL 1 2 /\ acquire_ok (env w) = true) /\
  exists res w',
    curl_shim_simple_request (Some "http://nowhere.invalid/"%string) (Some "GET"%string)
      None NULL 1 2 w = Some (res, w') /\
    (xfer_result (net (env w)) <> CURLE_OK -> res <> CURLE_OK) /\
    (res <> CURLE_OK ->
       (res = xfer_result (net (env w)) \/ res = CURLE_WRITE_ERROR) /\
       (exists rq, performed (log w') = (rq, res) :: performed (log w)) /\
       (exists p, freed (log w') = p :: freed (log w)) /\
       heap w' = heap w /\ vars w' = vars w /\
       vars w' !! 1%N = vars w !! 1%N /\
       vars w' !! 2%N = vars w !! 2%N /\
       handles w' = handles w).
Proof.
  assert (Hok : request_ok (world0 (mkEnv all_ok true unresolved)) None NULL 1 2)
    by (apply request_ok_world0; [done | vm_compute; congruence]).
  split; [split; [exact Hok | reflexivity]|].
  apply (transport_failure_discards_buffer (world0 (mkEnv all_ok true unresolved)));
    [exact Hok | reflexivity].
Defined.

(** C8: the claim asks for a valid non-null buffer at the start of every
    call.  The routine stores the result of [malloc(1)] unchecked: when
    that allocation fails, the buffer starts as the null pointer, and
    with an empty response the caller receives [CURLE_OK] together with a
    null response pointer. *)
Theorem buffer_is_null_when_malloc_fails :
  let w := world0 (mkEnv (fun _ => AllocFail) true quiet) in
  exists w',
    curl_shim_simple_request (Some "http://h/"%string) (Some "GET"%string) None NULL 1 2 w
      = Some (CURLE_OK, w') /\
    malloced (log w') = [(1, NULL)] /\
    vars w' !! 1%N = Some (OPtr NULL) /\
    vars w' !! 2%N = Some (OSize 0).
Proof.
  eexists. split; [vm_compute; reflexivity|]. split_and!; vm_compute; reflexivity.
Qed.

(** C1, as stated, fails: the three-byte body [a 00 b], attached as the
    payload (followed by its terminator), goes out as the single byte
    [a]; the routine takes the length from [strlen]. *)
Lemma body_with_zero_byte_is_truncated :
  let body := [x61; x00; x62] in
  exists w',
    curl_shim_simple_request (Some "http://h/"%string) (Some "POST"%string)
      (Some (body ++ [x00])) NULL 1 2 (world0 (mkEnv all_ok true quiet))
      = Some (CURLE_OK, w') /\
    sent_bodies (log w') = [Some [x61]] /\
    sent_bodies (log w') <> [Some body].
Proof.
  eexists. split; [vm_compute; reflexivity|]. split; vm_compute; congruence.
Qed.

(** C1, amended: for every request with a payload attached, the body is
    sent with the length [strlen] finds: the bytes of the payload before
    its first zero byte.  A body without a zero byte, terminated by the
    caller, is therefore sent in full; a body with an embedded zero byte
    is cut at it. *)
Theorem body_is_sent_up_to_first_zero_byte w url method bs headers response response_len :
  request_ok w (Some bs) headers response response_len ->
  acquire_ok (env w) = true ->
  exists res w' n,
    curl_shim_simple_request url method (Some bs) headers response response_len w
      = Some (res, w') /\
    strlen_nat bs = Some n /\
    performed (log w')
      = (mkWire url method (lines_of w headers) (Some (take n bs)), res)
          :: performed (log w) /\
    bs !! n = Some x00 /\ Forall (fun c => c <> x00) (take n bs) /\
    (forall body, bs = body ++ [x00] -> Forall (fun c => c <> x00) body ->
       take n bs = body).
Proof.
  intros Hok Hacq.
  pose proof Hok as (_ & [[n Hn] _] & _).
  destruct (simple_request_spec w url method (Some bs) headers response response_len Hok Hacq)
    as (res & w' & p & b & acc & evs & Hrun & _ & _ & _ & _ & _ & _ & Hlog & Hevs & _).
  destruct (request_log (brk w) p res b
              (mkWire url method (lines_of w headers) (body_of (Some bs))) evs (log w) Hevs)
    as (_ & Hperf & _).
  rewrite <- Hlog in Hperf. cbn [body_of] in Hperf. rewrite Hn in Hperf. cbn [default] in Hperf.
  destruct (strlen_nat_spec bs n Hn) as (_ & Hz & Hall).
  exists res, w', n. split_and!; try done.
  intros body -> Hbody. rewrite (strlen_nat_no_zero body Hbody) in Hn.
  injection Hn as <-. apply take_app_length.
Qed.

Lemma body_is_sent_up_to_first_zero_byte_witness :
  let w := world0 (mkEnv all_ok true quiet) in
  let bs := hello ++ [x00] in
  (request_ok w (Some bs) NULL 1 2 /\ acquire_ok (env w) = true) /\
  exists res w' n,
    curl_shim_simple_request (Some "http://h/"%string) (Some "POST"%string)
      (Some bs) NULL 1 2 w = Some (res, w') /\
    strlen_nat bs = Some n /\
    performed (log w')
      = (mkWire (Some "http://h/"%string) (Some "POST"%string) (lines_of w NULL)
           (Some (take n bs)), res)
          :: performed (log w) /\
    bs !! n = Some x00 /\ Forall (fun c => c <> x00) (take n bs) /\
    (forall body, bs = body ++ [x00] -> Forall (fun c => c <> x00) body ->
       take n bs = body).
Proof.
  assert (Hok : request_ok (world0 (mkEnv all_ok true quiet)) (Some (hello ++ [x00])) NULL 1 2).
  { apply request_ok_world0; [|vm_compute; congruence].
    split; [by eexists | vm_compute; congruence]. }
  split; [split; [exact Hok | reflexivity]|].
  apply (body_is_sent_up_to_first_zero_byte (world0 (mkEnv all_ok true quiet)));
    [exact Hok | reflexivity].
Defined.

(** C2, as stated, fails: a successful call given a non-empty header list
    returns without having released it; the list is still live. *)
Lemma header_list_not_released :
  exists w',
    curl_shim_simple_request (Some "http://h/"%string) (Some "GET"%string) None 3 1 2
      (world1 (mkEnv all_ok true quiet)) = Some (CURLE_OK, w') /\
    released (log w') = [] /\
    slists w' !! 3%N = Some ["Accept: */*"%string].
Proof.
  eexists. split; [vm_compute; reflexivity|]. split; vm_compute; reflexivity.
Qed.

(** C2, amended: the routine never releases the header list it is given,
    whatever the outcome (handle not acquired, transfer failed, transfer
    succeeded): on return the list is live and unchanged and stays with
    the caller, whose [curl_shim_slist_free_all] then releases it, once. *)
Theorem header_list_stays_with_caller w url method payload headers response response_len :
  request_ok w payload headers response response_len ->
  headers <> NULL ->
  exists res w',
    curl_shim_simple_request url method payload headers response response_len w
      = Some (res, w') /\
    released (log w') = released (log w) /\
    slists w' = slists w /\ is_Some (slists w' !! headers) /\
    exists w'',
      curl_shim_slist_free_all headers w' = Some (tt, w'') /\
      released (log w'') = headers :: released (log w) /\
      slists w'' = delete headers (slists w).
Proof.
  intros Hok Hne.
  pose proof Hok as (_ & _ & [?|[hs Hhs]] & _); [done|].
  assert (Hfree : forall w', slists w' = slists w -> released (log w') = released (log w) ->
            exists w'', curl_shim_slist_free_all headers w' = Some (tt, w'') /\
                        released (log w'') = headers :: released (log w) /\
                        slists w'' = delete headers (slists w)).
  { intros w' Hsl Hrel. destruct w' as [hp vs hd sl bk tk lg en]. cbn [slists log] in *.
    unfold curl_shim_slist_free_all, curl_slist_free_all.
    rewrite (proj2 (N.eqb_neq headers NULL) Hne). run. rewrite Hsl, Hhs. run.
    eexists. split; [reflexivity|]. run. split; [|done].
    unfold released in *. cbn [collect]. by rewrite Hrel. }
  destruct (acquire_ok (env w)) eqn:Hacq.
  - destruct (simple_request_spec w url method payload headers response response_len Hok Hacq)
      as (res & w' & p & b & acc & evs & Hrun & _ & _ & _ & _ & Hsl & _ & Hlog & Hevs & _).
    destruct (request_log (brk w) p res b
                (mkWire url method (lines_of w headers) (body_of payload)) evs (log w) Hevs)
      as (Hrel & _).
    rewrite <- Hlog in Hrel.
    exists res, w'. split_and!; try done.
    + rewrite Hsl, Hhs. by eexists.
    + by apply Hfree.
  - exists CURLE_FAILED_INIT. eexists. split; [by apply init_failed_run|].
    change (slists (set_log (cons (EvEasyInit NULL)) w)) with (slists w).
    split_and!; try done. by apply Hfree.
Qed.

Lemma header_list_stays_with_caller_witness :
  let w := world1 (mkEnv all_ok true unresolved) in
  (request_ok w None 3 1 2 /\ 3%N <> NULL) /\
  exists res w',
    curl_shim_simple_request (Some "http://h/"%string) (Some "GET"%string) None 3 1 2 w
      = Some (res, w') /\
    released (log w') = released (log w) /\
    slists w' = slists w /\ is_Some (slists w' !! 3%N) /\
    exists w'',
      curl_shim_slist_free_all 3 w' = Some (tt, w'') /\
      released (log w'') = 3%N :: released (log w) /\
      slists w'' = delete 3%N (slists w).
Proof.
  assert (Hok : request_ok (world1 (mkEnv all_ok true unresolved)) None 3 1 2)
    by (apply request_ok_world1; [done | vm_compute; congruence]).
  split; [split; [exact Hok | done]|].
  apply (header_list_stays_with_caller (world1 (mkEnv all_ok true unresolved)));
    [exact Hok | done].
Defined.

(** C5, as stated, fails in its last part: after a request answered with
    status 500 and a ten-byte body the routine returns [CURLE_OK] and the
    ten bytes, but the handle of the exchange has been cleaned up and no
    handle is left from which [curl_shim_getinfo_long] could read the
    status. *)
Lemma status_not_retrievable_after_request :
  exists w',
    curl_shim_simple_request (Some "http://h/"%string) (Some "GET"%string) None NULL 1 2
      (world0 (mkEnv all_ok true server_error)) = Some (CURLE_OK, w') /\
    vars w' !! 2%N = Some (OSize 10) /\
    handles w' = ∅ /\
    forall h value r w'',
      curl_shim_getinfo_long h CURLINFO_RESPONSE_CODE value w' = Some (r, w'') ->
      r <> CURLE_OK.
Proof.
  eexists. split; [vm_compute; reflexivity|].
  split; [vm_compute; reflexivity|].
  match goal with
  | |- handles ?W = ∅ /\ _ =>
      set (w' := W); assert (He : handles w' = ∅) by (vm_compute; reflexivity);
      clearbody w'
  end.
  split; [exact He|].
  intros h value r w''. unfold curl_shim_getinfo_long, curl_easy_getinfo, live_handle.
  destruct (N.eqb h NULL); run; [by intros [= <- _]|].
  rewrite He, lookup_empty. done.
Qed.

(** C5, amended: a request whose transport exchange completes gives
    [CURLE_OK] and the whole response body whatever the HTTP status was;
    the status is not part of the result.  It cannot be read for that
    exchange afterwards: the routine releases its own handle before
    returning, so the handle of the exchange is not live and
    [curl_shim_getinfo_long] on it is not a defined call. *)
Theorem status_is_separate_from_result w url method payload headers response response_len :
  request_ok w payload headers response response_len ->
  acquire_ok (env w) = true ->
  let x := net (env w) in
  exists res w',
    curl_shim_simple_request url method payload headers response response_len w
      = Some (res, w') /\
    (xfer_result x = CURLE_OK ->
     (forall i, alloc_plan (env w) (S (ticks w) + i) <> AllocFail) ->
     res = CURLE_OK) /\
    (res = CURLE_OK ->
     exists p blk,
       vars w' !! response = Some (OPtr p) /\
       vars w' !! response_len = Some (OSize (total (xfer_chunks x))) /\
       old_block w' p = Some blk /\
       take (Z.to_nat (total (xfer_chunks x))) blk = map Some (concat (xfer_chunks x))) /\
    handles w' = handles w /\ handles w' !! brk w = None /\
    (forall value, curl_shim_getinfo_long (brk w) CURLINFO_RESPONSE_CODE value w' = None).
Proof.
  intros Hok Hacq x.
  pose proof Hok as (Hwf & _ & _ & [o1 Hr] & [o2 Hl] & _).
  assert (Hne : response_len <> response) by congruence.
  destruct (simple_request_spec w url method payload headers response response_len Hok Hacq)
    as (res & w' & p & b & acc & evs & Hrun & _ & Hplan & _ & Hhs & _ & _ & _ & _ & Hsz
          & _ & Hsucc & _).
  pose proof Hwf as (Hbrk & _ & Hfresh).
  destruct (Hfresh (brk w) ltac:(lia)) as (_ & _ & Hnone & _).
  exists res, w'. split_and!; try done.
  - intros Hx Hall. rewrite <- Hx. by apply Hplan.
  - intros ->. destruct (Hsucc eq_refl) as (-> & Hv & _ & blk & Hold & Htake).
    exists (data b), blk. rewrite Hsz, len_concat in Hv.
    split_and!; try done.
    + by rewrite Hv, lookup_insert_ne, lookup_insert_eq.
    + by rewrite Hv, lookup_insert_eq.
    + rewrite <- len_concat. unfold len. by rewrite Nat2Z.id.
  - by rewrite Hhs.
  - intros value. unfold curl_shim_getinfo_long, curl_easy_getinfo, live_handle.
    rewrite (proj2 (N.eqb_neq (brk w) NULL)) by (unfold NULL; lia).
    run. by rewrite Hhs, Hnone.
Qed.

Lemma status_is_separate_from_result_witness :
  let w := world0 (mkEnv all_ok true server_error) in
  let x := net (env w) in
  (request_ok w None NULL 1 2 /\ acquire_ok (env w) = true) /\
  exists res w',
    curl_shim_simple_request (Some "http://h/"%string) (Some "GET"%string) None NULL 1 2 w
      = Some (res, w') /\
    (xfer_result x = CURLE_OK ->
     (forall i, alloc_plan (env w) (S (ticks w) + i) <> AllocFail) ->
     res = CURLE_OK) /\
    (res = CURLE_OK ->
     exists p blk,
       vars w' !! 1%N = Some (OPtr p) /\
       vars w' !! 2%N = Some (OSize (total (xfer_chunks x))) /\
       old_block w' p = Some blk /\
       take (Z.to_nat (total (xfer_chunks x))) blk = map Some (concat (xfer_chunks x))) /\
    handles w' = handles w /\ handles w' !! brk w = None /\
    (forall value, curl_shim_getinfo_long (brk w) CURLINFO_RESPONSE_CODE value w' = None).
Proof.
  assert (Hok : request_ok (world0 (mkEnv all_ok true server_error)) None NULL 1 2)
    by (apply request_ok_world0; [done | vm_compute; congruence]).
  split; [split; [exact Hok | reflexivity]|].
  apply (status_is_separate_from_result (world0 (mkEnv all_ok true server_error)));
    [exact Hok | reflexivity].
Defined.


(** * Further properties of the code *)

(** ** The sink, whatever the allocator does *)

Lemma terminated_frame w w' b acc :
  terminated w b acc -> heap w' = heap w -> terminated w' b acc.
Proof. unfold terminated. by intros H ->. Qed.

(** The delivery loop in full: [k] chunks are taken before the loop ends,
    either because the sequence is exhausted or because chunk [k], which
    is not empty, meets a failing reallocation. *)
Lemma deliver_full ud chunks : forall w b acc,
  wf w -> accumulator w ud b acc ->
  len acc + total chunks + 1 <= SIZE_MAX ->
  exists rets w' b' k,
    deliver write_cb_fn ud chunks w = Some (rets, w') /\
    wf w' /\ accumulator w' ud b' (acc ++ concat (take k chunks)) /\
    sink_frame w w' ud b b' /\
    ticks w' = (ticks w + length rets)%nat /\
    (forall i c, (i < k)%nat -> chunks !! i = Some c ->
       alloc_plan (env w) (ticks w + i) <> AllocFail \/ c = []) /\
    (k = length chunks /\ rets = map len chunks
     \/ exists c, chunks !! k = Some c /\ c <> [] /\
          alloc_plan (env w) (ticks w + k) = AllocFail /\
          rets = map len (take k chunks) ++ [0]) /\
    (terminated w b acc \/ 0 < total (take k chunks) ->
       terminated w' b' (acc ++ concat (take k chunks))) /\
    (chunks = [] -> w' = w /\ b' = b).
Proof.
  induction chunks as [|c cs IH]; intros w b acc Hwf Hacc Hmax.
  - exists [], w, b, O. cbn [take concat]. rewrite app_nil_r.
    split_and!; try done.
    + apply sink_frame_refl, Hacc.
    + by left.
    + intros [Ht|Ht]; [done | cbn in Ht; lia].
  - change (total (c :: cs)) with (len c + total cs) in Hmax.
    pose proof (total_nonneg cs) as Hcs. pose proof (len_nonneg c) as Hc.
    destruct (sink_step w ud b acc c Hwf Hacc ltac:(lia))
      as (r & w1 & b1 & acc1 & Hrun & Hwf1 & Hacc1 & Hfr1 & Htk1 & Hcase).
    assert (Henv1 : env w1 = env w) by (destruct Hfr1 as (_ & _ & _ & _ & ? & _); done).
    cbn [deliver call bind]. rewrite Hrun.
    destruct (Z.eqb_spec r (len c)) as [Hr|Hr].
    + (* the chunk was accepted *)
      assert (Hfirst : alloc_plan (env w) (ticks w) <> AllocFail \/ c = []).
      { destruct Hcase as [(_ & -> & _)|(? & _)]; [right|by left].
        destruct c; [done|]. unfold len in Hr. cbn [length] in Hr. lia. }
      assert (Hacc1' : acc1 = acc ++ c).
      { destruct Hcase as [(Hf & _ & _ & -> & _)|(_ & _ & -> & _)]; [|done].
        destruct Hfirst as [Hs | ->]; [done | by rewrite app_nil_r]. }
      assert (Hterm1 : terminated w b acc \/ 0 < len c -> terminated w1 b1 acc1).
      { destruct Hcase as [(Hf & _ & -> & -> & Hh & _)|(_ & _ & _ & _ & ?)]; [|done].
        intros [Ht|Hpos]; [by eapply terminated_frame|].
        destruct Hfirst as [Hs | ->]; [done | unfold len in Hpos; cbn in Hpos; lia]. }
      subst acc1.
      destruct (IH w1 b1 (acc ++ c) Hwf1 Hacc1)
        as (ns & w2 & b2 & k & Hrun2 & Hwf2 & Hacc2 & Hfr2 & Htk2 & Hbefore & Hend & Hterm & _).
      { rewrite len_app. lia. }
      run. rewrite Hrun2. run.
      exists (r :: ns), w2, b2, (S k). cbn [take concat].
      rewrite <- app_assoc in Hacc2, Hterm.
      split_and!; try done.
      * eapply sink_frame_trans; eauto.
      * rewrite Htk2, Htk1. cbn [length]. lia.
      * intros [|i] c' Hi Hc'.
        -- injection Hc' as <-. by rewrite Nat.add_0_r.
        -- replace (ticks w + S i)%nat with (ticks w1 + i)%nat by lia.
           rewrite <- Henv1. apply Hbefore; [lia | done].
      * destruct Hend as [(-> & ->)|(c' & Hc' & Hne & Hplan & ->)].
        -- left. by rewrite Hr.
        -- right. exists c'. split_and!; try done.
           ++ replace (ticks w + S k)%nat with (ticks w1 + k)%nat by lia. by rewrite <- Henv1.
           ++ by rewrite Hr.
      * intros Hpre. apply Hterm.
        change (total (c :: take k cs)) with (len c + total (take k cs)) in Hpre.
        destruct (Z.lt_ge_cases 0 (len c)) as [Hpos|Hz].
        -- left. apply Hterm1. by right.
        -- destruct Hpre as [Ht|Ht]; [left; apply Hterm1; by left | right; lia].
    + (* the chunk was refused: the engine stops *)
      destruct Hcase as [(Hfail & -> & -> & -> & Hh & Hv & _)|(_ & -> & _)]; [|done].
      run. exists [0], w1, b, O. cbn [take concat]. rewrite app_nil_r.
      split_and!; try done.
      * rewrite Htk1. cbn [length]. lia.
      * intros i c' Hi. lia.
      * right. exists c. rewrite Nat.add_0_r. split_and!; try done.
        intros ->. done.
      * intros [Ht|Ht]; [by eapply terminated_frame | cbn in Ht; lia].
Qed.

(** ** The request routine in full *)

Lemma configure_exact w curl url method payload headers buf k :
  curl <> NULL -> handles w !! curl = Some easy_default ->
  payload_ok payload ->
  exists W,
    configure_then curl url method payload headers buf k w = k W /\
    heap W = heap w /\ vars W = vars w /\
    handles W = <[curl := configured url method payload headers buf]> (handles w) /\
    slists W = slists w /\ brk W = brk w /\ ticks W = ticks w /\ env W = env w /\
    log W = config_events curl (configuration url method payload headers buf) ++ log w.
Proof.
  intros Hcurl He Hpay. apply N.eqb_neq in Hcurl.
  destruct w as [hp vs hs sl bk tk lg en]. cbn [handles] in He.
  unfold configure_then, curl_easy_setopt, live_handle, configured, config_events, configuration.
  rewrite Hcurl.
  destruct payload as [bs|]; [destruct Hpay as [[n Hn] _]; unfold strlen; rewrite Hn|];
    destruct (N.eqb headers NULL) eqn:Hhd;
    repeat (run; first [rewrite He | rewrite lookup_insert_eq]; cbn [set_option easy_default
              o_url o_customrequest o_httpheader o_postfields o_postfieldsize o_writefunction
              o_writedata o_nosignal o_http_version o_ssl_verifypeer o_ssl_verifyhost
              i_response_code default]);
    (eexists; split; [reflexivity|]); run; rewrite ?insert_insert_eq;
    (split_and!; try done).
  all: apply N.eqb_eq in Hhd; subst headers; done.
Qed.

Lemma refused_is_not_all (chunks : list (list byte)) k c :
  chunks !! k = Some c -> c <> [] ->
  map len (take k chunks) ++ [0] <> map len chunks.
Proof.
  intros Hk Hc Heq.
  assert (Hlt : (k < length chunks)%nat) by (eapply lookup_lt_Some; eauto).
  assert (H1 : (map len (take k chunks) ++ [0]) !! k = Some 0).
  { rewrite lookup_app_r; rewrite length_map, length_take; [|lia].
    replace (k - k `min` length chunks)%nat with O by lia. done. }
  rewrite Heq in H1.
  change (map len chunks) with (len <$> chunks) in H1.
  rewrite list_lookup_fmap, Hk in H1. injection H1 as H1.
  destruct c; [done|]. unfold len in H1. cbn [length] in H1. lia.
Qed.

Lemma perform_full w h e b hs body :
  wf w -> h <> NULL -> handles w !! h = Some e ->
  o_writefunction e = Some write_cb_fn ->
  accumulator w (o_writedata e) b [] ->
  header_lines (o_httpheader e) w = Some (hs, w) ->
  wire_body e w = Some (body, w) ->
  total (xfer_chunks (net (env w))) + 1 <= SIZE_MAX ->
  let x := net (env w) in
  exists res w' b' k evs,
    curl_easy_perform h w = Some (res, w') /\
    wf w' /\ accumulator w' (o_writedata e) b' (concat (take k (xfer_chunks x))) /\
    vars w' = <[o_writedata e := OBuffer b']> (vars w) /\
    delete (data b') (heap w') = delete (data b) (heap w) /\
    handles w' = alter (set_response_code (xfer_status x)) h (handles w) /\
    slists w' = slists w /\ env w' = env w /\
    log w' = EvPerform h (mkWire (o_url e) (o_customrequest e) hs body) res :: evs ++ log w /\
    Forall is_realloc evs /\
    (forall i c, (i < k)%nat -> xfer_chunks x !! i = Some c ->
       alloc_plan (env w) (ticks w + i) <> AllocFail \/ c = []) /\
    (k = length (xfer_chunks x) /\ res = xfer_result x
     \/ exists c, xfer_chunks x !! k = Some c /\ c <> [] /\
          alloc_plan (env w) (ticks w + k) = AllocFail /\ res = CURLE_WRITE_ERROR) /\
    (0 < total (take k (xfer_chunks x)) ->
       terminated w' b' (concat (take k (xfer_chunks x)))) /\
    (xfer_chunks x = [] -> b' = b /\ heap w' = heap w).
Proof.
  intros Hwf Hh He Hwr Hacc Hhs Hbody Hmax x.
  destruct (deliver_full (o_writedata e) (xfer_chunks x) w b [] Hwf Hacc)
    as (rets & w1 & b1 & k & Hrun & Hwf1 & Hacc1 & Hfr & _ & Hbefore & Hend & Hterm & Hnil).
  { change (len (@nil byte)) with 0. subst x. lia. }
  cbn [app] in Hacc1, Hterm.
  destruct Hfr as (Hv & Hd & Hhs1 & Hsl & Henv & evs & Hlog & Hevs).
  apply N.eqb_neq in Hh.
  unfold curl_easy_perform, live_handle. rewrite Hh. run. rewrite He. run.
  rewrite Hhs. rewrite Hbody. run.
  rewrite Hwr. fold x. rewrite Hrun. run.
  set (res := if bool_decide (rets = map len (xfer_chunks x))
              then xfer_result x else CURLE_WRITE_ERROR).
  eexists res, _, b1, k, evs. split; [reflexivity|].
  destruct w1 as [hp1 vs1 hs1 sl1 bk1 tk1 lg1 en1]. cbn [heap vars handles slists env log] in *.
  subst hs1. run.
  split_and!; try done.
  - eapply wf_frame; [exact Hwf1|done..|].
    intros a Ha. run. cbn [handles] in Ha. rewrite lookup_alter. case_decide; [subst a|done].
    by rewrite Ha.
  - by rewrite Hlog.
  - unfold res. destruct Hend as [(-> & ->)|(c & Hc & Hne & Hplan & ->)].
    + left. by rewrite bool_decide_eq_true_2.
    + right. exists c. split_and!; try done.
      rewrite bool_decide_eq_false_2; [done|]. by eapply refused_is_not_all.
  - intros Hpos. apply Hterm. by right.
  - intros Hx. destruct (Hnil Hx) as (Hw & ->). split; [done|]. by rewrite <- Hw.
Qed.

Lemma wf_shrink w w' :
  wf w -> brk w' = brk w ->
  (forall a, heap w !! a = None -> heap w' !! a = None) ->
  (forall a, vars w !! a = None -> vars w' !! a = None) ->
  (forall a, handles w !! a = None -> handles w' !! a = None) ->
  (forall a, slists w !! a = None -> slists w' !! a = None) ->
  wf w'.
Proof.
  intros (Hbrk & Hnull & Hfresh) Hb Hh Hv Hhs Hs. unfold wf. rewrite Hb.
  split_and!; [done | by apply Hh |].
  intros a Ha. destruct (Hfresh a Ha) as (? & ? & ? & ?). split_and!; auto.
Qed.

(** Everything the routine does when the handle is acquired: [p] is what
    [malloc(1)] returned, [buf] the address of the local [Buffer], [b] its
    final value and [k] the number of chunks the sink took. *)
Lemma simple_request_full w url method payload headers response response_len :
  request_ok w payload headers response response_len ->
  acquire_ok (env w) = true ->
  let x := net (env w) in
  let h := brk w in
  exists res w' p buf b k evs,
    curl_shim_simple_request url method payload headers response response_len w
      = Some (res, w') /\
    wf w' /\
    (p = NULL /\ alloc_plan (env w) (ticks w) = AllocFail \/
     p <> NULL /\ alloc_plan (env w) (ticks w) <> AllocFail /\ heap w !! p = None) /\
    vars w !! buf = None /\
    handles w' = handles w /\ slists w' = slists w /\ env w' = env w /\
    log w' = EvEasyCleanup h
               :: (if res =? CURLE_OK then [] else [EvFree (data b)])
               ++ EvPerform h (mkWire url method (lines_of w headers) (body_of payload)) res
               :: evs
               ++ config_events h (configuration url method payload headers buf)
               ++ EvMalloc 1 p :: EvEasyInit h :: log w /\
    Forall is_realloc evs /\
    size b = total (take k (xfer_chunks x)) /\
    (forall i c, (i < k)%nat -> xfer_chunks x !! i = Some c ->
       alloc_plan (env w) (S (ticks w) + i) <> AllocFail \/ c = []) /\
    (k = length (xfer_chunks x) /\ res = xfer_result x
     \/ exists c, xfer_chunks x !! k = Some c /\ c <> [] /\
          alloc_plan (env w) (S (ticks w) + k) = AllocFail /\ res = CURLE_WRITE_ERROR) /\
    (res <> CURLE_OK -> heap w' = heap w /\ vars w' = vars w) /\
    (res = CURLE_OK ->
       vars w' = <[response_len := OSize (size b)]>
                   (<[response := OPtr (data b)]> (vars w)) /\
       delete (data b) (heap w') = heap w /\
       (exists blk, old_block w' (data b) = Some blk /\
                    take (Z.to_nat (size b)) blk = map Some (concat (xfer_chunks x))) /\
       (0 < total (xfer_chunks x) ->
          data b <> NULL /\
          heap w' !! data b = Some (map Some (concat (xfer_chunks x)) ++ [Some x00]))).
Proof.
  intros (Hwf & Hpay & Hhdr & [o1 Hr] & [o2 Hl] & Hmax) Hacq x h0.
  rewrite simple_request_phases.
  destruct (init_run w Hwf Hacq) as (Hinit & Hwf1 & Hh).
  set (h := brk w) in *. subst h0.
  set (W1 := set_log _ _) in Hinit, Hwf1.
  unfold bind at 1. rewrite Hinit.
  rewrite (proj2 (N.eqb_neq h NULL) Hh).
  set (K := fun p buf => configure_then _ _ _ _ _ _ _).
  destruct (with_buffer_run W1 K Hwf1)
    as (p & buf & W3 & Hbuf & Hwf3 & Hacc3 & Hp & Hfresh & Hv3 & Hhs3 & Hsl3 & Henv3 & Htk3 & Hlog3).
  rewrite Hbuf. subst K. cbn beta.
  destruct (configure_exact W3 h url method payload headers buf
              (let* res := curl_easy_perform h in finish h buf response response_len res)
              Hh) as (W4 & Hconf & Hh4 & Hv4 & Hhs4 & Hsl4 & Hbrk4 & Htk4 & Henv4 & Hlog4).
  { rewrite Hhs3. subst W1. destruct w. run. apply lookup_insert_eq. }
  { done. }
  rewrite Hconf. clear Hconf Hbuf Hinit.
  assert (Hwf4 : wf W4).
  { eapply wf_frame; [exact Hwf3|done..|].
    intros a Ha. rewrite Hhs4.
    destruct (decide (a = h)) as [->|Hne].
    - exfalso. rewrite Hhs3 in Ha. unfold W1 in Ha. cbn [handles set_log set_handles] in Ha.
      by rewrite lookup_insert_eq in Ha.
    - by rewrite lookup_insert_ne. }
  assert (Hacc4 : accumulator W4 buf (mkBuffer p 0) [])
    by (eapply accumulator_frame; eauto).
  subst W1.
  cbn [set_heap set_vars set_handles set_slists set_brk set_ticks set_log
       heap vars handles slists brk ticks log env]
    in Hp, Hfresh, Hv3, Hhs3, Hsl3, Henv3, Htk3, Hlog3.
  rewrite Hv3 in Hv4. rewrite Hhs3, insert_insert_eq in Hhs4. rewrite Hsl3 in Hsl4.
  rewrite Htk3 in Htk4. rewrite Henv3 in Henv4. rewrite Hlog3 in Hlog4.
  set (e := configured url method payload headers buf) in *.
  assert (Hlines : header_lines (o_httpheader e) W4 = Some (lines_of w headers, W4)).
  { unfold header_lines, lines_of. cbn [e configured o_httpheader].
    destruct (N.eqb_spec headers NULL) as [|Hne]; [done|].
    destruct Hhdr as [|[hs Hhs]]; [done|]. run. rewrite Hsl4, Hhs. done. }
  assert (Hbody : wire_body e W4 = Some (body_of payload, W4)).
  { unfold body_of. destruct payload as [bs|]; [|done].
    destruct Hpay as [[n Hn] Hlen]. rewrite Hn. cbn [default].
    apply wire_body_strlen; try done. unfold e, configured. cbn [o_postfieldsize].
    by rewrite Hn. }
  destruct (perform_full W4 h e (mkBuffer p 0) (lines_of w headers) (body_of payload) Hwf4 Hh) as
    (res & W5 & b & k & evs & Hperf & Hwf5 & Hacc5 & Hv5 & Hd5 & Hhs5 & Hsl5 & Henv5
       & Hlog5 & Hevs & Hbefore & Hend & Hterm & Hnil); try done.
  { rewrite Hhs4. apply lookup_insert_eq. }
  { by rewrite Henv4. }
  unfold bind at 1. rewrite Hperf.
  rewrite Henv4, Htk4 in *. fold x in Hacc5, Hbefore, Hend, Hterm, Hnil, Hhs5. clear Hperf.
  change (o_writedata e) with buf in *. change (o_url e) with url in *.
  change (o_customrequest e) with method in *. cbn [data] in Hd5.
  pose proof Hwf as (Hbrk & Hnull & Hfr).
  destruct (Hfr h ltac:(unfold h; lia)) as (_ & _ & Hhnone & _).
  assert (Hrest : delete (data b) (heap W5) = heap w).
  { rewrite Hd5, Hh4.
    destruct Hp as [(-> & _ & ->)|(_ & _ & Hpn & ->)].
    - by apply delete_id.
    - rewrite delete_insert_eq. by apply delete_id. }
  rewrite Hv4, insert_insert_eq in Hv5.
  rewrite Hhs4 in Hhs5. rewrite Hsl4 in Hsl5. rewrite Hlog4 in Hlog5.
  assert (Hb5 : vars W5 !! buf = Some (OBuffer b)) by (rewrite Hv5; apply lookup_insert_eq).
  assert (Hne1 : buf <> response) by congruence.
  assert (Hne2 : buf <> response_len) by congruence.
  assert (Hne3 : response <> response_len) by congruence.
  assert (Hh5 : handles W5 !! h = Some (set_response_code (xfer_status x) e))
    by (rewrite Hhs5, lookup_alter_eq, lookup_insert_eq; done).
  assert (Hhandles : delete h (handles W5) = handles w).
  { rewrite Hhs5, delete_alter_eq, delete_insert_eq. by apply delete_id. }
  assert (Hsz : size b = total (take k (xfer_chunks x))).
  { destruct Hacc5 as (_ & -> & _). apply len_concat. }
  assert (Hp' : p = NULL /\ alloc_plan (env w) (ticks w) = AllocFail \/
                p <> NULL /\ alloc_plan (env w) (ticks w) <> AllocFail /\ heap w !! p = None).
  { destruct Hp as [(? & ? & _)|(? & ? & ? & _)]; [left|right]; done. }
  destruct (Z.eqb_spec res CURLE_OK) as [->|Hfail].
  - (* the transfer succeeded: hand the buffer over *)
    assert (Hr5 : vars W5 !! response = Some (OPtr o1))
      by (rewrite Hv5, lookup_insert_ne; done).
    assert (Hl5 : vars W5 !! response_len = Some (OSize o2))
      by (rewrite Hv5, lookup_insert_ne; done).
    destruct (finish_ok W5 h buf response response_len b _ o1 o2 Hb5 Hr5 Hl5 Hh Hh5) as
      (W6 & Hfin & Hh6 & Hv6 & Hhs6 & Hsl6 & Henv6 & Hbrk6 & Hlog6).
    assert (Hk : k = length (xfer_chunks x)).
    { destruct Hend as [(? & _)|(_ & _ & _ & _ & ?)]; done. }
    rewrite Hk, firstn_all in Hacc5, Hterm.
    exists CURLE_OK, W6, p, buf, b, k, evs.
    split_and!; try done; try congruence.
    + apply (wf_shrink W5); try done.
      * intros a Ha. by rewrite Hh6.
      * intros a Ha. rewrite Hv6.
        destruct (decide (a = buf)) as [->|?]; [apply lookup_delete_eq|].
        rewrite lookup_delete_ne by done.
        rewrite !lookup_insert_ne by congruence. done.
      * intros a Ha. rewrite Hhs6. apply lookup_delete_None. by right.
      * intros a Ha. by rewrite Hsl6.
    + rewrite Hlog6, Hlog5. cbn [app]. done.
    + intros _. split_and!.
      * rewrite Hv6, Hv5.
        rewrite delete_insert_ne, delete_insert_ne, delete_insert_eq by done.
        by rewrite delete_id.
      * by rewrite Hh6.
      * destruct (accumulator_bounds _ _ _ _ Hwf5 Hacc5) as (_ & _ & _ & blk & Hold & _ & Htake).
        exists blk. unfold old_block in *. by rewrite Hh6.
      * intros Hpos. specialize (Hterm Hpos). unfold terminated in Hterm.
        rewrite Hh6. split; [|done].
        intros Hn. destruct Hwf5 as (_ & Hnone & _). rewrite Hn in Hterm. congruence.
  - (* the transfer failed: drop the buffer *)
    destruct (accumulator_bounds _ _ _ _ Hwf5 Hacc5) as (_ & _ & _ & blk & Hold & _).
    destruct (finish_fail W5 h buf response response_len res b blk _ Hfail Hb5 Hold Hh Hh5) as
      (W6 & Hfin & Hh6 & Hv6 & Hhs6 & Hsl6 & Henv6 & Hbrk6 & Hlog6).
    rewrite delete_or_not in Hh6 by (destruct Hwf5 as (_ & ? & _); done).
    exists res, W6, p, buf, b, k, evs.
    rewrite (proj2 (Z.eqb_neq res CURLE_OK) Hfail).
    split_and!; try done; try congruence.
    + apply (wf_shrink W5); try done.
      * intros a Ha. rewrite Hh6. apply lookup_delete_None. by right.
      * intros a Ha. rewrite Hv6. apply lookup_delete_None. by right.
      * intros a Ha. rewrite Hhs6. apply lookup_delete_None. by right.
      * intros a Ha. by rewrite Hsl6.
    + rewrite Hlog6, Hlog5. cbn [app]. done.
    + intros _. split; [congruence|].
      rewrite Hv6, Hv5, delete_insert_eq. by apply delete_id.
Qed.

Lemma config_events_setopt h cfg : Forall is_setopt (config_events h cfg).
Proof.
  unfold config_events. apply Forall_reverse, Forall_forall.
  intros e He. apply list_elem_of_In, in_map_iff in He as (ov & <- & _). exact I.
Qed.

Lemma options_of_config h cfg :
  options_set (config_events h cfg)
  = reverse (map (fun ov => (h, fst ov, snd ov, CURLE_OK)) cfg).
Proof.
  unfold config_events, options_set. induction cfg as [|ov cfg IH]; [done|].
  cbn [map]. rewrite !reverse_cons, collect_app, IH. done.
Qed.

Lemma collect_skip {A} (f : event -> option A) (P : event -> Prop) l1 l2 :
  (forall e, P e -> f e = None) -> Forall P l1 -> collect f (l1 ++ l2) = collect f l2.
Proof. intros HP Hl. by rewrite collect_app, (collect_none f P l1). Qed.

(** The projections of the log of a completed request. *)
Lemma request_log_full (h p : N) res (b : Buffer) rq evs cfg lg :
  Forall is_realloc evs ->
  let L := EvEasyCleanup h
             :: (if res =? CURLE_OK then [] else [EvFree (data b)])
             ++ EvPerform h rq res :: evs ++ config_events h cfg
             ++ EvMalloc 1 p :: EvEasyInit h :: lg in
  options_set L = options_set (config_events h cfg) ++ options_set lg /\
  cleaned_up L = h :: cleaned_up lg /\
  released L = released lg /\
  performed L = (rq, res) :: performed lg /\
  malloced L = (1, p) :: malloced lg /\
  freed L = (if res =? CURLE_OK then [] else [data b]) ++ freed lg.
Proof.
  intros Hevs L. subst L. pose proof (config_events_setopt h cfg) as Hcfg.
  unfold cleaned_up, released, performed, malloced, freed.
  split.
  { unfold options_set. cbn [collect]. rewrite collect_app. cbn [collect].
    rewrite (collect_skip _ is_realloc evs) by (done || by intros []).
    rewrite collect_app. cbn [collect]. by destruct (res =? CURLE_OK). }
  cbn [collect]. rewrite !collect_app. cbn [collect].
  rewrite !(collect_skip _ is_realloc evs) by (done || by intros []).
  rewrite !(collect_skip _ is_setopt (config_events h cfg)) by (done || by intros []).
  cbn [collect]. destruct (res =? CURLE_OK); done.
Qed.

(** ** The empty response when the first allocation fails *)

(** C10: the claim fails where C8 fails.  The routine hands back whatever
    its unchecked [malloc(1)] returned.  When that allocation fails and
    the exchange succeeds without a chunk for the sink, the call returns
    [CURLE_OK] and length 0 with a null response pointer: nothing has
    been allocated, and the caller holds no one-byte allocation. *)
Theorem empty_response_is_null_when_malloc_fails w url method payload headers response response_len :
  request_ok w payload headers response response_len ->
  acquire_ok (env w) = true ->
  xfer_chunks (net (env w)) = [] -> xfer_result (net (env w)) = CURLE_OK ->
  alloc_plan (env w) (ticks w) = AllocFail ->
  exists w',
    curl_shim_simple_request url method payload headers response response_len w
      = Some (CURLE_OK, w') /\
    malloced (log w') = (1, NULL) :: malloced (log w) /\
    vars w' !! response = Some (OPtr NULL) /\
    vars w' !! response_len = Some (OSize 0) /\
    heap w' = heap w /\ heap w' !! NULL = None.
Proof.
  intros Hok Hacq Hnil Hres Hfail.
  pose proof Hok as (_ & _ & _ & [o1 Hr] & [o2 Hl] & _).
  assert (Hne : response_len <> response) by congruence.
  destruct (simple_request_spec w url method payload headers response response_len Hok Hacq)
    as (res & w' & p & b & acc & evs & Hrun & _ & _ & Hp & _ & _ & _ & Hlog & Hevs & _
          & _ & Hsucc & Hempty).
  destruct (Hempty Hnil) as (-> & -> & _). rewrite Hres in *.
  destruct Hp as [(-> & _)|(_ & ? & _)]; [|done].
  destruct (Hsucc eq_refl) as (_ & Hv & Hdel & _). cbn [data size] in Hv, Hdel.
  destruct (request_log (brk w) NULL CURLE_OK (mkBuffer NULL 0)
              (mkWire url method (lines_of w headers) (body_of payload)) evs (log w) Hevs)
    as (_ & _ & Hmal & _).
  rewrite <- Hlog in Hmal.
  assert (Hnone : heap w' !! NULL = None).
  { destruct (simple_request_full w url method payload headers response response_len Hok Hacq)
      as (res2 & w2 & _ & _ & _ & _ & _ & Hrun2 & (_ & Hn2 & _) & _).
    rewrite Hrun in Hrun2. by injection Hrun2 as _ <-. }
  exists w'. split_and!; try done.
  - by rewrite Hv, lookup_insert_ne, lookup_insert_eq.
  - by rewrite Hv, lookup_insert_eq.
  - by rewrite <- Hdel, delete_id.
Qed.

Lemma empty_response_is_null_when_malloc_fails_witness :
  let w := world1 (mkEnv (fun _ => AllocFail) true quiet) in
  (request_ok w None 3 1 2 /\ acquire_ok (env w) = true /\
   xfer_chunks (net (env w)) = [] /\ xfer_result (net (env w)) = CURLE_OK /\
   alloc_plan (env w) (ticks w) = AllocFail) /\
  exists w',
    curl_shim_simple_request (Some "http://h/"%string) (Some "GET"%string) None 3 1 2 w
      = Some (CURLE_OK, w') /\
    malloced (log w') = (1, NULL) :: malloced (log w) /\
    vars w' !! 1%N = Some (OPtr NULL) /\
    vars w' !! 2%N = Some (OSize 0) /\
    heap w' = heap w /\ heap w' !! NULL = None.
Proof.
  assert (Hok : request_ok (world1 (mkEnv (fun _ => AllocFail) true quiet)) None 3 1 2)
    by (apply request_ok_world1; [done | vm_compute; congruence]).
  split; [split_and!; [exact Hok | reflexivity..]|].
  apply (empty_response_is_null_when_malloc_fails
           (world1 (mkEnv (fun _ => AllocFail) true quiet)));
    [exact Hok | reflexivity..].
Defined.

(** ** Extra properties: the sink *)

(** X1: one call of [write_cb] with element size [s] and count [n] takes
    all [s * n] bytes or nothing.  If the reallocation fails it returns 0
    and leaves the [Buffer] and the heap as they were; otherwise it
    returns [s * n], the recorded size grows by [s * n], and the block is
    the old content, the [s * n] bytes, and one zero byte. *)
Theorem write_cb_all_or_nothing w ud b acc ptr s n :
  wf w -> accumulator w ud b acc ->
  0 <= s -> 0 <= n -> s * n <= len ptr ->
  len acc + s * n + 1 <= SIZE_MAX ->
  let chunk := take (Z.to_nat (s * n)) ptr in
  exists r w' b',
    write_cb ptr s n ud w = Some (r, w') /\
    vars w' !! ud = Some (OBuffer b') /\
    (alloc_plan (env w) (ticks w) = AllocFail /\
       r = 0 /\ b' = b /\ heap w' = heap w /\ vars w' = vars w
     \/
     alloc_plan (env w) (ticks w) <> AllocFail /\
       r = s * n /\ size b' = size b + s * n /\ data b' <> NULL /\
       heap w' !! data b' = Some (map Some (acc ++ chunk) ++ [Some x00])).
Proof.
  intros Hwf Hacc Hs Hn Hptr Hmax chunk.
  destruct (accumulator_bounds _ _ _ _ Hwf Hacc) as (Hud & Hp & H0 & blk & Hold & Hle & Htake).
  pose proof Hacc as (Hb & Hsz & Hblk).
  pose proof Hwf as (Hbrk & Hnull & Hfresh).
  pose proof (len_nonneg acc) as Hacc0.
  assert (Hsn : 0 <= s * n) by lia.
  assert (Hrs : size_t (s * n) = s * n) by (apply size_t_small; lia).
  assert (Hchunk : len chunk = s * n)
    by (unfold chunk, len in *; rewrite length_take; lia).
  assert (Hcases : alloc_plan (env w) (ticks w) = AllocFail \/
                   alloc_plan (env w) (ticks w) <> AllocFail)
    by (destruct (alloc_plan (env w) (ticks w)); [by left | by right | by right]).
  destruct Hcases as [Hplan|Hplan].
  - assert (Hnz : size_t (size b + size_t (s * n) + 1) <> 0)
      by (rewrite Hrs, size_t_small; lia).
    eexists 0, _, b. split; [by apply (write_cb_fail w ud b blk)|].
    destruct w as [hp vs hs sl bk tk lg en]. run. split; [done|]. by left.
  - destruct (write_cb_ok w ud b blk ptr s n Hb Hold H0 Hle
                ltac:(rewrite Hrs; lia) ltac:(rewrite Hrs; lia) Hbrk Hplan)
      as (q & w' & Hrun & Hq & Hheap & Hvars & Hhs & Hsl & Henv & Htk & Hlog).
    rewrite Hrs in *. fold chunk in Hheap.
    rewrite delete_or_not in Hheap by done.
    assert (Hgrown : grown blk (size b) chunk = map Some (acc ++ chunk) ++ [Some x00])
      by (unfold grown; rewrite Htake, map_app, app_assoc; done).
    rewrite Hgrown in Hheap. rewrite <- Hchunk in Hvars.
    destruct (grown_invariants w w' ud b acc chunk q _ Hwf Hacc Hq Hheap Hvars Hhs Hsl Henv Hlog I)
      as (_ & (Hb' & _) & _ & Hqn & Hterm).
    eexists (s * n), w', _. split; [exact Hrun|]. split; [exact Hb'|].
    right. cbn [size data]. split_and!; try done. by rewrite Hchunk.
Qed.

Lemma write_cb_all_or_nothing_witness :
  let w := buffer_world (mkEnv all_ok true quiet) in
  (wf w /\ accumulator w 2 (mkBuffer 1 0) [] /\
   0 <= 5 /\ 0 <= 2 /\ 5 * 2 <= len ten_bytes /\ len (@nil byte) + 5 * 2 + 1 <= SIZE_MAX) /\
  let chunk := take (Z.to_nat (5 * 2)) ten_bytes in
  exists r w' b',
    write_cb ten_bytes 5 2 2 w = Some (r, w') /\
    vars w' !! 2%N = Some (OBuffer b') /\
    (alloc_plan (env w) (ticks w) = AllocFail /\
       r = 0 /\ b' = mkBuffer 1 0 /\ heap w' = heap w /\ vars w' = vars w
     \/
     alloc_plan (env w) (ticks w) <> AllocFail /\
       r = 5 * 2 /\ size b' = size (mkBuffer 1 0) + 5 * 2 /\ data b' <> NULL /\
       heap w' !! data b' = Some (map Some ([] ++ chunk) ++ [Some x00])).
Proof.
  split.
  - split_and!; [apply wf_buffer_world | apply accumulator_buffer_world
                 | vm_compute; congruence ..].
  - apply (write_cb_all_or_nothing (buffer_world (mkEnv all_ok true quiet)) 2 (mkBuffer 1 0)
             [] ten_bytes 5 2);
      [apply wf_buffer_world | apply accumulator_buffer_world | vm_compute; congruence ..].
Defined.

(** X2: the engine's delivery stops at the first chunk the sink refuses,
    and a chunk is refused exactly when it is not empty and its
    reallocation fails.  The buffer then holds the chunks taken before
    it, whole and in order, never a part of a chunk; the sink's answers
    are their lengths, followed by a 0 for the refused chunk. *)
Theorem delivery_keeps_whole_chunks w ud b acc chunks :
  wf w -> accumulator w ud b acc ->
  len acc + total chunks + 1 <= SIZE_MAX ->
  exists rets w' b' k,
    deliver write_cb_fn ud chunks w = Some (rets, w') /\
    accumulator w' ud b' (acc ++ concat (take k chunks)) /\
    size b' = size b + total (take k chunks) /\
    (forall i c, (i < k)%nat -> chunks !! i = Some c ->
       alloc_plan (env w) (ticks w + i) <> AllocFail \/ c = []) /\
    (k = length chunks /\ rets = map len chunks
     \/ exists c, chunks !! k = Some c /\ c <> [] /\
          alloc_plan (env w) (ticks w + k) = AllocFail /\
          rets = map len (take k chunks) ++ [0]).
Proof.
  intros Hwf Hacc Hmax.
  destruct (deliver_full ud chunks w b acc Hwf Hacc Hmax)
    as (rets & w' & b' & k & Hrun & _ & Hacc' & _ & _ & Hbefore & Hend & _).
  exists rets, w', b', k. split_and!; try done.
  destruct Hacc as (_ & -> & _). destruct Hacc' as (_ & -> & _).
  by rewrite len_app, len_concat.
Qed.

Lemma delivery_keeps_whole_chunks_witness :
  let w := buffer_world (mkEnv (fun i => match i with 1%nat => AllocFail | _ => AllocStay end)
                           true quiet) in
  let chunks := [hello; hello; hello] in
  (wf w /\ accumulator w 2 (mkBuffer 1 0) [] /\
   len (@nil byte) + total chunks + 1 <= SIZE_MAX) /\
  exists rets w' b' k,
    deliver write_cb_fn 2 chunks w = Some (rets, w') /\
    accumulator w' 2 b' ([] ++ concat (take k chunks)) /\
    size b' = size (mkBuffer 1 0) + total (take k chunks) /\
    (forall i c, (i < k)%nat -> chunks !! i = Some c ->
       alloc_plan (env w) (ticks w + i) <> AllocFail \/ c = []) /\
    (k = length chunks /\ rets = map len chunks
     \/ exists c, chunks !! k = Some c /\ c <> [] /\
          alloc_plan (env w) (ticks w + k) = AllocFail /\
          rets = map len (take k chunks) ++ [0]).
Proof.
  split.
  - split_and!; [apply wf_buffer_world | apply accumulator_buffer_world
                 | vm_compute; congruence].
  - apply (delivery_keeps_whole_chunks
             (buffer_world (mkEnv (fun i => match i with 1%nat => AllocFail | _ => AllocStay end)
                              true quiet)) 2 (mkBuffer 1 0) [] [hello; hello; hello]);
      [apply wf_buffer_world | apply accumulator_buffer_world | vm_compute; congruence].
Defined.

(** X3: however many chunks are delivered and whatever the allocator
    does, the sink touches nothing but its own [Buffer] and that buffer's
    block: every other variable and every other heap block is as before,
    no handle or header list changes, and the only library calls made are
    [realloc]s.  When the block has moved, the old address is no longer
    live. *)
Theorem sink_touches_only_its_buffer w ud b acc chunks :
  wf w -> accumulator w ud b acc ->
  len acc + total chunks + 1 <= SIZE_MAX ->
  exists rets w' b' evs,
    deliver write_cb_fn ud chunks w = Some (rets, w') /\
    vars w' !! ud = Some (OBuffer b') /\
    (forall a, a <> ud -> vars w' !! a = vars w !! a) /\
    (forall a, a <> data b -> a <> data b' -> heap w' !! a = heap w !! a) /\
    (data b' <> data b -> heap w' !! data b = None) /\
    handles w' = handles w /\ slists w' = slists w /\
    log w' = evs ++ log w /\ Forall is_realloc evs.
Proof.
  intros Hwf Hacc Hmax.
  destruct (deliver_full ud chunks w b acc Hwf Hacc Hmax)
    as (rets & w' & b' & k & Hrun & _ & Hacc' & Hfr & _).
  destruct Hfr as (Hv & Hd & Hhs & Hsl & _ & evs & Hlog & Hevs).
  exists rets, w', b', evs. split_and!; try done.
  - by destruct Hacc'.
  - intros a Ha. by rewrite Hv, lookup_insert_ne.
  - intros a Ha Ha'.
    rewrite <- (lookup_delete_ne (heap w') (data b') a) by done.
    rewrite Hd. by rewrite lookup_delete_ne.
  - intros Hne.
    rewrite <- (lookup_delete_ne (heap w') (data b') (data b)) by done.
    rewrite Hd. apply lookup_delete_eq.
Qed.

Lemma sink_touches_only_its_buffer_witness :
  let w := buffer_world (mkEnv all_ok true quiet) in
  let chunks := [hello; hello] in
  (wf w /\ accumulator w 2 (mkBuffer 1 0) [] /\
   len (@nil byte) + total chunks + 1 <= SIZE_MAX) /\
  exists rets w' b' evs,
    deliver write_cb_fn 2 chunks w = Some (rets, w') /\
    vars w' !! 2%N = Some (OBuffer b') /\
    (forall a, a <> 2%N -> vars w' !! a = vars w !! a) /\
    (forall a, a <> data (mkBuffer 1 0) -> a <> data b' -> heap w' !! a = heap w !! a) /\
    (data b' <> data (mkBuffer 1 0) -> heap w' !! data (mkBuffer 1 0) = None) /\
    handles w' = handles w /\ slists w' = slists w /\
    log w' = evs ++ log w /\ Forall is_realloc evs.
Proof.
  split.
  - split_and!; [apply wf_buffer_world | apply accumulator_buffer_world
                 | vm_compute; congruence].
  - apply (sink_touches_only_its_buffer (buffer_world (mkEnv all_ok true quiet)) 2
             (mkBuffer 1 0) [] [hello; hello]);
      [apply wf_buffer_world | apply accumulator_buffer_world | vm_compute; congruence].
Defined.

(** ** Extra properties: the request routine *)

(** X4: a successful request with a non-empty response body returns a
    non-null buffer that holds exactly the body followed by one zero
    byte: [response[response_len]] is 0 and the block is
    [response_len + 1] bytes long, whatever the allocator did on the way
    (moved blocks, a failed [malloc(1)]). *)
Theorem nonempty_response_is_terminated w url method payload headers response response_len :
  request_ok w payload headers response response_len ->
  acquire_ok (env w) = true ->
  let body := concat (xfer_chunks (net (env w))) in
  exists res w',
    curl_shim_simple_request url method payload headers response response_len w
      = Some (res, w') /\
    (res = CURLE_OK -> body <> [] ->
     exists p,
       p <> NULL /\
       vars w' !! response = Some (OPtr p) /\
       vars w' !! response_len = Some (OSize (len body)) /\
       heap w' !! p = Some (map Some body ++ [Some x00])).
Proof.
  intros Hok Hacq body.
  pose proof Hok as (_ & _ & _ & [o1 Hr] & [o2 Hl] & _).
  assert (Hne : response_len <> response) by congruence.
  destruct (simple_request_full w url method payload headers response response_len Hok Hacq)
    as (res & w' & p & buf & b & k & evs & Hrun & _ & _ & _ & _ & _ & _ & _ & _ & Hsz & _
          & Hend & _ & Hsucc).
  exists res, w'. split; [exact Hrun|].
  intros -> Hbody. destruct (Hsucc eq_refl) as (Hv & _ & _ & Hterm).
  assert (Hk : k = length (xfer_chunks (net (env w))))
    by (destruct Hend as [(? & _)|(_ & _ & _ & _ & ?)]; done).
  rewrite Hk, firstn_all, <- len_concat in Hsz. fold body in Hsz.
  destruct Hterm as [Hp Hblk].
  { rewrite <- len_concat. fold body. destruct body; [done|]. unfold len. cbn [length]. lia. }
  exists (data b). rewrite <- Hsz. split_and!; try done.
  - by rewrite Hv, lookup_insert_ne, lookup_insert_eq.
  - by rewrite Hv, lookup_insert_eq.
Qed.

Lemma nonempty_response_is_terminated_witness :
  let w := world0 (mkEnv all_ok true server_error) in
  (request_ok w None NULL 1 2 /\ acquire_ok (env w) = true) /\
  let body := concat (xfer_chunks (net (env w))) in
  exists res w',
    curl_shim_simple_request (Some "http://h/"%string) (Some "GET"%string) None NULL 1 2 w
      = Some (res, w') /\
    (res = CURLE_OK -> body <> [] ->
     exists p,
       p <> NULL /\
       vars w' !! 1%N = Some (OPtr p) /\
       vars w' !! 2%N = Some (OSize (len body)) /\
       heap w' !! p = Some (map Some body ++ [Some x00])).
Proof.
  assert (Hok : request_ok (world0 (mkEnv all_ok true server_error)) None NULL 1 2)
    by (apply request_ok_world0; [done | vm_compute; congruence]).
  split; [split; [exact Hok | reflexivity]|].
  apply (nonempty_response_is_terminated (world0 (mkEnv all_ok true server_error)));
    [exact Hok | reflexivity].
Defined.

(** X5: on success the response buffer is the only thing the call leaves
    behind.  It is not a block that was live before the call, every
    other block is as it was, and the routine has not freed it; once the
    caller frees the pointer it received, the heap is exactly what it was
    before the call. *)
Theorem freeing_the_response_restores_the_heap w url method payload headers response response_len :
  request_ok w payload headers response response_len ->
  acquire_ok (env w) = true ->
  exists res w',
    curl_shim_simple_request url method payload headers response response_len w
      = Some (res, w') /\
    (res = CURLE_OK ->
     freed (log w') = freed (log w) /\
     exists p w'',
       vars w' !! response = Some (OPtr p) /\
       heap w !! p = None /\
       (forall a, a <> p -> heap w' !! a = heap w !! a) /\
       free p w' = Some (tt, w'') /\
       heap w'' = heap w /\ handles w'' = handles w).
Proof.
  intros Hok Hacq.
  pose proof Hok as (_ & _ & _ & [o1 Hr] & [o2 Hl] & _).
  assert (Hne : response_len <> response) by congruence.
  destruct (simple_request_full w url method payload headers response response_len Hok Hacq)
    as (res & w' & p & buf & b & k & evs & Hrun & Hwf' & _ & _ & Hhs & _ & _ & Hlog & Hevs
          & _ & _ & _ & _ & Hsucc).
  exists res, w'. split; [exact Hrun|].
  intros ->. destruct (Hsucc eq_refl) as (Hv & Hrest & (blk & Hold & _) & _).
  destruct (request_log_full (brk w) p CURLE_OK b
              (mkWire url method (lines_of w headers) (body_of payload)) evs
              (configuration url method payload headers buf) (log w) Hevs)
    as (_ & _ & _ & _ & _ & Hfreed).
  rewrite <- Hlog in Hfreed. split; [exact Hfreed|].
  destruct w' as [hp vs hs sl bk tk lg en]. unfold old_block in Hold.
  destruct Hwf' as (_ & Hnull & _). cbn [heap handles vars] in *.
  assert (Hp : vs !! response = Some (OPtr (data b)))
    by (by rewrite Hv, lookup_insert_ne, lookup_insert_eq).
  assert (Hnew : heap w !! data b = None)
    by (rewrite <- Hrest; apply lookup_delete_eq).
  assert (Hothers : forall a, a <> data b -> hp !! a = heap w !! a)
    by (intros a Ha; rewrite <- Hrest; by rewrite lookup_delete_ne).
  exists (data b). unfold free.
  destruct (N.eqb_spec (data b) NULL) as [Hn|Hn]; run.
  - eexists. split_and!; [exact Hp | exact Hnew | exact Hothers | reflexivity | |done].
    run. rewrite Hn in Hrest. rewrite delete_id in Hrest by done. done.
  - rewrite Hold. run.
    eexists. split_and!; [exact Hp | exact Hnew | exact Hothers | reflexivity | |done].
    run. done.
Qed.

Lemma freeing_the_response_restores_the_heap_witness :
  let w := world0 (mkEnv all_ok true server_error) in
  (request_ok w None NULL 1 2 /\ acquire_ok (env w) = true) /\
  exists res w',
    curl_shim_simple_request (Some "http://h/"%string) (Some "GET"%string) None NULL 1 2 w
      = Some (res, w') /\
    (res = CURLE_OK ->
     freed (log w') = freed (log w) /\
     exists p w'',
       vars w' !! 1%N = Some (OPtr p) /\
       heap w !! p = None /\
       (forall a, a <> p -> heap w' !! a = heap w !! a) /\
       free p w' = Some (tt, w'') /\
       heap w'' = heap w /\ handles w'' = handles w).
Proof.
  assert (Hok : request_ok (world0 (mkEnv all_ok true server_error)) None NULL 1 2)
    by (apply request_ok_world0; [done | vm_compute; congruence]).
  split; [split; [exact Hok | reflexivity]|].
  apply (freeing_the_response_restores_the_heap (world0 (mkEnv all_ok true server_error)));
    [exact Hok | reflexivity].
Defined.

(** X6: what the routine requires of its caller holds again when it
    returns, on every path: the world is well-formed, the header list is
    as live as before, and the out-variables are still a pointer and a
    size.  So the same call can be made again, any number of times. *)
Theorem request_can_be_repeated w url method payload headers response response_len :
  request_ok w payload headers response response_len ->
  exists res w',
    curl_shim_simple_request url method payload headers response response_len w
      = Some (res, w') /\
    request_ok w' payload headers response response_len /\
    exists res' w'',
      curl_shim_simple_request url method payload headers response response_len w'
        = Some (res', w'').
Proof.
  assert (Hstep : forall w, request_ok w payload headers response response_len ->
            exists res w',
              curl_shim_simple_request url method payload headers response response_len w
                = Some (res, w') /\
              request_ok w' payload headers response response_len).
  { clear w. intros w Hok.
    pose proof Hok as (Hwf & Hpay & Hhdr & [o1 Hr] & [o2 Hl] & Hmax).
    assert (Hne : response_len <> response) by congruence.
    destruct (acquire_ok (env w)) eqn:Hacq.
    - destruct (simple_request_full w url method payload headers response response_len Hok Hacq)
        as (res & w' & p & buf & b & k & evs & Hrun & Hwf' & _ & _ & _ & Hsl & Henv & _ & _
              & _ & _ & _ & Hfail & Hsucc).
      exists res, w'. split; [exact Hrun|].
      unfold request_ok, headers_ok. rewrite Hsl, Henv. split_and!; try done.
      + destruct (Z.eq_dec res CURLE_OK) as [->|Hres].
        * destruct (Hsucc eq_refl) as (-> & _).
          rewrite lookup_insert_ne, lookup_insert_eq by done. by eexists.
        * destruct (Hfail Hres) as (_ & ->). by eexists.
      + destruct (Z.eq_dec res CURLE_OK) as [->|Hres].
        * destruct (Hsucc eq_refl) as (-> & _). rewrite lookup_insert_eq. by eexists.
        * destruct (Hfail Hres) as (_ & ->). by eexists.
    - exists CURLE_FAILED_INIT, (set_log (cons (EvEasyInit NULL)) w).
      split; [by apply init_failed_run|].
      unfold request_ok. split_and!.
      + by apply (wf_frame w).
      + exact Hpay.
      + exact Hhdr.
      + by exists o1.
      + by exists o2.
      + exact Hmax. }
  intros Hok. destruct (Hstep w Hok) as (res & w' & Hrun & Hok').
  exists res, w'. split_and!; try done.
  destruct (Hstep w' Hok') as (res' & w'' & Hrun' & _). eauto.
Qed.

Lemma request_can_be_repeated_witness :
  let w := world0 (mkEnv all_ok true server_error) in
  request_ok w None NULL 1 2 /\
  exists res w',
    curl_shim_simple_request (Some "http://h/"%string) (Some "GET"%string) None NULL 1 2 w
      = Some (res, w') /\
    request_ok w' None NULL 1 2 /\
    exists res' w'',
      curl_shim_simple_request (Some "http://h/"%string) (Some "GET"%string) None NULL 1 2 w'
        = Some (res', w'').
Proof.
  assert (Hok : request_ok (world0 (mkEnv all_ok true server_error)) None NULL 1 2)
    by (apply request_ok_world0; [done | vm_compute; congruence]).
  split; [exact Hok|].
  apply (request_can_be_repeated (world0 (mkEnv all_ok true server_error))). exact Hok.
Defined.

(** X7: the options the routine sets on its handle are exactly those of
    [configuration], in that order, nothing else and nothing twice: URL
    and custom request always; the header list only when the pointer is
    not null; body and body size only when a payload is given; then the
    sink and its buffer, no signals, HTTP/1.1, and peer and host
    verification switched on (1 and 2).  Every call is answered
    [CURLE_OK]; [buf], the routine's local, is an address not in use
    before the call. *)
Theorem request_is_configured_as_listed w url method payload headers response response_len :
  request_ok w payload headers response response_len ->
  acquire_ok (env w) = true ->
  exists res w' buf,
    curl_shim_simple_request url method payload headers response response_len w
      = Some (res, w') /\
    vars w !! buf = None /\
    options_set (log w')
      = reverse (map (fun ov => (brk w, fst ov, snd ov, CURLE_OK))
                   (configuration url method payload headers buf))
        ++ options_set (log w).
Proof.
  intros Hok Hacq.
  destruct (simple_request_full w url method payload headers response response_len Hok Hacq)
    as (res & w' & p & buf & b & k & evs & Hrun & _ & _ & Hbuf & _ & _ & _ & Hlog & Hevs & _).
  destruct (request_log_full (brk w) p res b
              (mkWire url method (lines_of w headers) (body_of payload)) evs
              (configuration url method payload headers buf) (log w) Hevs)
    as (Hopts & _).
  rewrite <- Hlog, options_of_config in Hopts.
  exists res, w', buf. done.
Qed.

Lemma request_is_configured_as_listed_witness :
  let w := world1 (mkEnv all_ok true quiet) in
  let payload := Some (hello ++ [x00]) in
  (request_ok w payload 3 1 2 /\ acquire_ok (env w) = true) /\
  exists res w' buf,
    curl_shim_simple_request (Some "http://h/"%string) (Some "POST"%string) payload 3 1 2 w
      = Some (res, w') /\
    vars w !! buf = None /\
    options_set (log w')
      = reverse (map (fun ov => (brk w, fst ov, snd ov, CURLE_OK))
                   (configuration (Some "http://h/"%string) (Some "POST"%string)
                      payload 3 buf))
        ++ options_set (log w).
Proof.
  assert (Hok : request_ok (world1 (mkEnv all_ok true quiet)) (Some (hello ++ [x00])) 3 1 2).
  { apply request_ok_world1; [|vm_compute; congruence].
    split; [by eexists | vm_compute; congruence]. }
  split; [split; [exact Hok | reflexivity]|].
  apply (request_is_configured_as_listed (world1 (mkEnv all_ok true quiet)));
    [exact Hok | reflexivity].
Defined.

(** X8: when the reallocation for a non-empty chunk fails, the request
    fails with [CURLE_WRITE_ERROR], whatever outcome the network itself
    would have had; the chunks taken so far are dropped with the buffer,
    and the heap and the caller's variables are as before the call. *)
Theorem sink_failure_is_a_write_error w url method payload headers response response_len j c :
  request_ok w payload headers response response_len ->
  acquire_ok (env w) = true ->
  xfer_chunks (net (env w)) !! j = Some c -> c <> [] ->
  alloc_plan (env w) (S (ticks w) + j) = AllocFail ->
  exists w',
    curl_shim_simple_request url method payload headers response response_len w
      = Some (CURLE_WRITE_ERROR, w') /\
    heap w' = heap w /\ vars w' = vars w /\ handles w' = handles w.
Proof.
  intros Hok Hacq Hj Hc Hplan.
  destruct (simple_request_full w url method payload headers response response_len Hok Hacq)
    as (res & w' & p & buf & b & k & evs & Hrun & _ & _ & _ & Hhs & _ & _ & _ & _ & _
          & Hbefore & Hend & Hfail & _).
  assert (Hres : res = CURLE_WRITE_ERROR).
  { destruct Hend as [(Hk & _)|(_ & _ & _ & _ & ?)]; [|done].
    exfalso. apply lookup_lt_Some in Hj as Hlt. rewrite <- Hk in Hlt.
    destruct (Hbefore j c Hlt Hj); done. }
  subst res. exists w'. destruct (Hfail ltac:(done)) as [? ?]. done.
Qed.

Lemma sink_failure_is_a_write_error_witness :
  let w := world0 (mkEnv (fun i => match i with 2%nat => AllocFail | _ => AllocMove end) true
                     (mkExchange [hello; hello] CURLE_OK 200)) in
  (request_ok w None NULL 1 2 /\ acquire_ok (env w) = true /\
   xfer_chunks (net (env w)) !! 1%nat = Some hello /\ hello <> [] /\
   alloc_plan (env w) (S (ticks w) + 1) = AllocFail) /\
  exists w',
    curl_shim_simple_request (Some "http://h/"%string) (Some "GET"%string) None NULL 1 2 w
      = Some (CURLE_WRITE_ERROR, w') /\
    heap w' = heap w /\ vars w' = vars w /\ handles w' = handles w.
Proof.
  set (e := mkEnv (fun i => match i with 2%nat => AllocFail | _ => AllocMove end) true
              (mkExchange [hello; hello] CURLE_OK 200)).
  assert (Hok : request_ok (world0 e) None NULL 1 2)
    by (apply request_ok_world0; [done | vm_compute; congruence]).
  split; [split_and!; [exact Hok | reflexivity | reflexivity | done | reflexivity]|].
  apply (sink_failure_is_a_write_error (world0 e) _ _ None NULL 1 2 1%nat hello);
    [exact Hok | reflexivity | reflexivity | done | reflexivity].
Defined.

(** X9: a failed [malloc(1)] does not fail the request.  The sink's first
    [realloc] then starts from the null pointer and allocates; if the
    reallocations succeed and the exchange does, the caller gets
    [CURLE_OK] and the complete, terminated body in a non-null buffer. *)
Theorem failed_first_allocation_is_recovered w url method payload headers response response_len :
  request_ok w payload headers response response_len ->
  acquire_ok (env w) = true ->
  alloc_plan (env w) (ticks w) = AllocFail ->
  (forall i, alloc_plan (env w) (S (ticks w) + i) <> AllocFail) ->
  xfer_result (net (env w)) = CURLE_OK ->
  0 < total (xfer_chunks (net (env w))) ->
  let body := concat (xfer_chunks (net (env w))) in
  exists w' p,
    curl_shim_simple_request url method payload headers response response_len w
      = Some (CURLE_OK, w') /\
    malloced (log w') = (1, NULL) :: malloced (log w) /\
    p <> NULL /\
    vars w' !! response = Some (OPtr p) /\
    vars w' !! response_len = Some (OSize (len body)) /\
    heap w' !! p = Some (map Some body ++ [Some x00]).
Proof.
  intros Hok Hacq Hfirst Hlater Hx Hpos body.
  pose proof Hok as (_ & _ & _ & [o1 Hr] & [o2 Hl] & _).
  assert (Hne : response_len <> response) by congruence.
  destruct (simple_request_full w url method payload headers response response_len Hok Hacq)
    as (res & w' & p & buf & b & k & evs & Hrun & _ & Hp & _ & _ & _ & _ & Hlog & Hevs & Hsz
          & _ & Hend & _ & Hsucc).
  destruct Hend as [(Hk & Hres)|(c & _ & _ & Hplan & _)]; [|by destruct (Hlater k)].
  rewrite Hx in Hres. subst res.
  destruct Hp as [(-> & _)|(_ & ? & _)]; [|done].
  destruct (Hsucc eq_refl) as (Hv & _ & _ & Hterm).
  destruct (Hterm Hpos) as [Hpn Hblk].
  rewrite Hk, firstn_all, <- len_concat in Hsz. fold body in Hsz.
  destruct (request_log_full (brk w) NULL CURLE_OK b
              (mkWire url method (lines_of w headers) (body_of payload)) evs
              (configuration url method payload headers buf) (log w) Hevs)
    as (_ & _ & _ & _ & Hmal & _).
  rewrite <- Hlog in Hmal.
  exists w', (data b). rewrite <- Hsz. split_and!; try done.
  - by rewrite Hv, lookup_insert_ne, lookup_insert_eq.
  - by rewrite Hv, lookup_insert_eq.
Qed.

Lemma failed_first_allocation_is_recovered_witness :
  let w := world0 (mkEnv (fun i => match i with O => AllocFail | _ => AllocStay end) true
                     (mkExchange [hello; hello] CURLE_OK 200)) in
  (request_ok w None NULL 1 2 /\ acquire_ok (env w) = true /\
   alloc_plan (env w) (ticks w) = AllocFail /\
   (forall i, alloc_plan (env w) (S (ticks w) + i) <> AllocFail) /\
   xfer_result (net (env w)) = CURLE_OK /\
   0 < total (xfer_chunks (net (env w)))) /\
  let body := concat (xfer_chunks (net (env w))) in
  exists w' p,
    curl_shim_simple_request (Some "http://h/"%string) (Some "GET"%string) None NULL 1 2 w
      = Some (CURLE_OK, w') /\
    malloced (log w') = (1, NULL) :: malloced (log w) /\
    p <> NULL /\
    vars w' !! 1%N = Some (OPtr p) /\
    vars w' !! 2%N = Some (OSize (len body)) /\
    heap w' !! p = Some (map Some body ++ [Some x00]).
Proof.
  set (e := mkEnv (fun i => match i with O => AllocFail | _ => AllocStay end) true
              (mkExchange [hello; hello] CURLE_OK 200)).
  assert (Hok : request_ok (world0 e) None NULL 1 2)
    by (apply request_ok_world0; [done | vm_compute; congruence]).
  split; [split_and!; [exact Hok | reflexivity | reflexivity | done | reflexivity | done]|].
  apply (failed_first_allocation_is_recovered (world0 e));
    [exact Hok | reflexivity | reflexivity | done | reflexivity | done].
Defined.

(** X10: the routine releases its handle exactly once when it has
    acquired one, after the perform step and on both outcomes, and makes
    no cleanup call when the acquisition failed; either way the handles
    live after the call are those live before it. *)
Theorem handle_is_cleaned_up_once w url method payload headers response response_len :
  request_ok w payload headers response response_len ->
  exists res w',
    curl_shim_simple_request url method payload headers response response_len w
      = Some (res, w') /\
    handles w' = handles w /\
    cleaned_up (log w')
      = (if acquire_ok (env w) then [brk w] else []) ++ cleaned_up (log w) /\
    (acquire_ok (env w) = true ->
     exists rq later earlier,
       log w' = EvEasyCleanup (brk w) :: later ++ EvPerform (brk w) rq res :: earlier /\
       cleaned_up later = []).
Proof.
  intros Hok. destruct (acquire_ok (env w)) eqn:Hacq.
  - destruct (simple_request_full w url method payload headers response response_len Hok Hacq)
      as (res & w' & p & buf & b & k & evs & Hrun & _ & _ & _ & Hhs & _ & _ & Hlog & Hevs & _).
    destruct (request_log_full (brk w) p res b
                (mkWire url method (lines_of w headers) (body_of payload)) evs
                (configuration url method payload headers buf) (log w) Hevs)
      as (_ & Hcl & _).
    rewrite <- Hlog in Hcl.
    exists res, w'. split_and!; try done.
    intros _. eexists _, _, _. split; [exact Hlog|]. by destruct (res =? CURLE_OK).
  - exists CURLE_FAILED_INIT, (set_log (cons (EvEasyInit NULL)) w).
    split; [by apply init_failed_run|]. split_and!; done.
Qed.

Lemma handle_is_cleaned_up_once_witness :
  let w := world0 (mkEnv all_ok true unresolved) in
  request_ok w None NULL 1 2 /\
  exists res w',
    curl_shim_simple_request (Some "http://h/"%string) (Some "GET"%string) None NULL 1 2 w
      = Some (res, w') /\
    handles w' = handles w /\
    cleaned_up (log w')
      = (if acquire_ok (env w) then [brk w] else []) ++ cleaned_up (log w) /\
    (acquire_ok (env w) = true ->
     exists rq later earlier,
       log w' = EvEasyCleanup (brk w) :: later ++ EvPerform (brk w) rq res :: earlier /\
       cleaned_up later = []).
Proof.
  assert (Hok : request_ok (world0 (mkEnv all_ok true unresolved)) None NULL 1 2)
    by (apply request_ok_world0; [done | vm_compute; congruence]).
  split; [exact Hok|].
  apply (handle_is_cleaned_up_once (world0 (mkEnv all_ok true unresolved))). exact Hok.
Defined.



(** X12: when the exchange succeeds and the sink is never invoked, the
    routine returns length 0 and the very pointer its one-byte [malloc]
    produced.  No byte of that allocation has been written: if the
    allocation succeeded, the returned block is one indeterminate byte,
    without a terminator; if it did not, the pointer is null. *)
Theorem empty_response_is_unterminated w url method payload headers response response_len :
  request_ok w payload headers response response_len ->
  acquire_ok (env w) = true ->
  xfer_chunks (net (env w)) = [] -> xfer_result (net (env w)) = CURLE_OK ->
  exists w' p,
    curl_shim_simple_request url method payload headers response response_len w
      = Some (CURLE_OK, w') /\
    malloced (log w') = (1, p) :: malloced (log w) /\
    vars w' !! response = Some (OPtr p) /\
    vars w' !! response_len = Some (OSize 0) /\
    (alloc_plan (env w) (ticks w) <> AllocFail ->
       p <> NULL /\ heap w !! p = None /\ heap w' !! p = Some [None]) /\
    (alloc_plan (env w) (ticks w) = AllocFail -> p = NULL).
Proof.
  intros Hok Hacq Hnil Hres.
  pose proof Hok as (_ & _ & _ & [o1 Hr] & [o2 Hl] & _).
  assert (Hne : response_len <> response) by congruence.
  destruct (simple_request_spec w url method payload headers response response_len Hok Hacq)
    as (res & w' & p & b & acc & evs & Hrun & _ & _ & Hp & _ & _ & _ & Hlog & Hevs & _
          & _ & Hsucc & Hempty).
  destruct (Hempty Hnil) as (-> & -> & Hheap). rewrite Hres in *.
  destruct (Hsucc eq_refl) as (_ & Hv & _). cbn [data size] in Hv.
  destruct (request_log (brk w) p CURLE_OK (mkBuffer p 0)
              (mkWire url method (lines_of w headers) (body_of payload)) evs (log w) Hevs)
    as (_ & _ & Hmal & _).
  rewrite <- Hlog in Hmal.
  exists w', p. split_and!; try done.
  - by rewrite Hv, lookup_insert_ne, lookup_insert_eq.
  - by rewrite Hv, lookup_insert_eq.
  - intros Hplan. destruct Hp as [(_ & ?)|(Hpn & _ & Hfresh)]; [done|].
    split_and!; try done. rewrite (Hheap eq_refl Hpn). apply lookup_insert_eq.
  - intros Hplan. destruct Hp as [(? & _)|(_ & ? & _)]; done.
Qed.

Lemma empty_response_is_unterminated_witness :
  let w := world0 (mkEnv all_ok true quiet) in
  (request_ok w None NULL 1 2 /\ acquire_ok (env w) = true /\
   xfer_chunks (net (env w)) = [] /\ xfer_result (net (env w)) = CURLE_OK) /\
  exists w' p,
    curl_shim_simple_request (Some "http://h/"%string) (Some "GET"%string) None NULL 1 2 w
      = Some (CURLE_OK, w') /\
    malloced (log w') = (1, p) :: malloced (log w) /\
    vars w' !! 1%N = Some (OPtr p) /\
    vars w' !! 2%N = Some (OSize 0) /\
    (alloc_plan (env w) (ticks w) <> AllocFail ->
       p <> NULL /\ heap w !! p = None /\ heap w' !! p = Some [None]) /\
    (alloc_plan (env w) (ticks w) = AllocFail -> p = NULL).
Proof.
  assert (Hok : request_ok (world0 (mkEnv all_ok true quiet)) None NULL 1 2)
    by (apply request_ok_world0; [done | vm_compute; congruence]).
  split; [split_and!; [exact Hok | reflexivity..]|].
  apply (empty_response_is_unterminated (world0 (mkEnv all_ok true quiet)));
    [exact Hok | reflexivity..].
Defined.
